(** * b2/backend.go: backoff, retry and reauthorization around the raw B2 client

    A shallow embedding of [src/b2/backend.go].  The file wraps the baseline
    (raw) interfaces of the b2 package with backoff and retry semantics.

    Conventions of the embedding.
    - [time.Duration] is an [int64] count of nanoseconds: a [Z] with the
      wrap-around of the additions and multiplications written out
      ([wrap64]).
    - A Go [error] value is an [option error]: [None] is [nil].
    - Effects are explicit: a call is a function from the state before to the
      result and the state after it.  The state holds the world outside this
      layer (remote service, raw client, clock, context, random source), the
      [*beRoot] objects by address, and the variable captured by the closures
      of the enclosing function.  It also holds a log of the raw calls and of
      the waits performed, which only the theorems read.
    - The [for] loop of [withBackoff] has no bound: it is embedded with fuel,
      and running out of fuel is the absence of a result ([None]). *)

From Stdlib Require Import ZArith QArith Qround Lqa Lia List String Bool Sorted.
From Stdlib Require Import Floats Uint63.
Import ListNotations.
Open Scope Z_scope.

(** ** Durations *)

Definition Millisecond : Z := 1000000.
Definition Second : Z := 1000 * Millisecond.

(** Wrap-around of a signed 64-bit integer. *)
Definition wrap64 (z : Z) : Z := (z + 2 ^ 63) mod 2 ^ 64 - 2 ^ 63.


(** ** float64 arithmetic

    The theorems are stated on exact rational arithmetic: [float64] values are
    rationals, [/], [*], [+] and [-] are exact, and the conversion
    [time.Duration(f)] discards the fraction (truncation towards zero).  The
    rounding of binary64 is therefore not part of [jitter]; [jitter64] below
    is the same function on IEEE binary64 numbers and is used to evaluate the
    code at concrete inputs. *)

(** [time.Duration(f)]: the fraction is discarded. *)
Definition Qtrunc (q : Q) : Z := Z.quot (Qnum q) (Z.pos (Qden q)).

(** The body of [jitter] once [rand.Float64()] has returned [draw]. *)
Definition jitter_of (draw : Q) (d : Z) : Z :=
  let f := inject_Z d in
  let f := (f / 50)%Q in
  let f := (f + f * (draw - (1 # 2)))%Q in
  Qtrunc f.




(** ** The world outside this layer *)

(** [math/rand]'s shared source: [rand.Float64()] returns a number of [0,1)
    and advances the source. *)
Class Runtime (World : Type) := rand_Float64 : World -> Q * World.

Definition error := string.

(** An [io.Reader] is a stream of the world, named by a number. *)
Definition io_Reader := nat.

(** The address of a [*beRoot]. *)
Definition ptr := nat.

(** What the log records: one entry per call to the raw client and one per
    [select] of [withBackoff]. *)
Inductive event : Type :=
| RawAuthorizeAccount (account key : string)
| RawCreateBucket (name btype : string)
| RawListBuckets
| RawDeleteBucket
| RawGetUploadURL
| RawUploadFile (name : string)
| RawDeleteFileVersion
| Waited (d : Z).

Section Model.

Context {World : Type} `{Runtime World}.

(** [context.Context], as far as this file uses it.  [select_Done d w] is the
    [select] between [<-ctx.Done()] and [<-time.After(d)] run in world [w]:
    [true] when the [ctx.Done()] case is taken.  [ctx_Err] is [ctx.Err()],
    which is not [nil] once [Done] is closed. *)
Record GoContext : Type := {
  select_Done : Z -> World -> bool * World;
  ctx_Err : World -> error
}.

(** Modelled from the spec: the raw File handle (b2FileInterface), declared
    outside [backend.go]; section 6 gives [deleteFileVersion(ctx) -> error]. *)
Record b2FileInterface : Type := {
  b2_deleteFileVersion : GoContext -> World -> option error * World
}.

(** Modelled from the spec: the raw UploadTarget handle (b2URLInterface),
    declared outside [backend.go]; section 6 gives [uploadFile(ctx,
    contentReader, size, name, contentType, contentHash, metadata) ->
    (rawFile, error)].  A result [(v, err)] of which the code uses [v] only
    when [err] is [nil] is a sum. *)
Record b2URLInterface : Type := {
  b2_uploadFile : GoContext -> io_Reader -> Z -> string -> string -> string ->
                  list (string * string) -> World -> (error + b2FileInterface) * World
}.

(** Modelled from the spec: the raw Bucket handle (b2BucketInterface),
    declared outside [backend.go]; section 6 gives [name() -> string],
    [deleteBucket(ctx) -> error] and [getUploadURL(ctx) -> (rawUploadTarget,
    error)]. *)
Record b2BucketInterface : Type := {
  b2_name : string;
  b2_deleteBucket : GoContext -> World -> option error * World;
  b2_getUploadURL : GoContext -> World -> (error + b2URLInterface) * World
}.

(** Modelled from the spec: the raw client of a Session (b2RootInterface),
    declared outside [backend.go]; section 6 gives the three calls and the
    classification hooks [transient], [reauth] and [backoff], which are
    functions of the error value. *)
Record b2RootInterface : Type := {
  b2_backoff : option error -> Z * bool;
  b2_reauth : option error -> bool;
  b2_transient : option error -> bool;
  b2_authorizeAccount : GoContext -> string -> string -> World -> option error * World;
  b2_createBucket : GoContext -> string -> string -> World -> (error + b2BucketInterface) * World;
  b2_listBuckets : GoContext -> World -> (error + list b2BucketInterface) * World
}.

(** ** The structs of [backend.go]

    [beRootInterface] has one implementation in this file, [*beRoot]: a value
    of that interface is the address of a [beRoot].  The handles are never
    written after their construction and are values. *)

Record beRoot : Type := {
  account : string;
  key : string;
  b2i : b2RootInterface
}.

Record beBucket : Type := {
  b2bucket : b2BucketInterface;
  bucket_ri : ptr
}.

Record beURL : Type := {
  b2url : b2URLInterface;
  url_ri : ptr
}.

Record beFile : Type := {
  b2file : b2FileInterface;
  file_url : beURL;
  file_ri : ptr
}.

(** ** State and the monad of calls *)

(** [frame] is the variable that the closures of the running function capture
    ([bi], [buckets], [url], [file]). *)
Record state (L : Type) : Type := mkState {
  world : World;
  roots : ptr -> beRoot;
  log : list event;
  frame : L
}.

Arguments mkState {L}.
Arguments world {L}.
Arguments roots {L}.
Arguments log {L}.
Arguments frame {L}.

(** A call either returns a result and a state, or has no result with the
    fuel given ([None]). *)
Definition M (L A : Type) : Type := state L -> option (A * state L).

Definition ret {L A} (a : A) : M L A := fun s => Some (a, s).

Definition bind {L A B} (m : M L A) (k : A -> M L B) : M L B :=
  fun s => match m s with
           | Some (a, s') => k a s'
           | None => None
           end.

Definition out_of_fuel {L A} : M L A := fun _ => None.

End Model.

Arguments GoContext World : clear implicits.
Arguments b2FileInterface World : clear implicits.
Arguments b2URLInterface World : clear implicits.
Arguments b2BucketInterface World : clear implicits.
Arguments b2RootInterface World : clear implicits.
Arguments beRoot World : clear implicits.
Arguments beBucket World : clear implicits.
Arguments beURL World : clear implicits.
Arguments beFile World : clear implicits.
Arguments state World L : clear implicits.
Arguments M World L A : clear implicits.
Arguments mkState {World L}.
Arguments world {World L}.
Arguments roots {World L}.
Arguments log {World L}.
Arguments frame {World L}.

Declare Scope call_scope.
Delimit Scope call_scope with call.
Notation "x <- m ;; k" := (bind m (fun x => k))
  (at level 61, m at next level, right associativity) : call_scope.
Notation "' pat <- m ;; k" := (bind m (fun x => match x with pat => k end))
  (at level 61, pat pattern, m at next level, right associativity) : call_scope.
Notation "m ;; k" := (bind m (fun _ => k))
  (at level 61, right associativity) : call_scope.

Section Operations.

Context {World : Type} `{Runtime World}.

Local Open Scope call_scope.

Local Abbreviation GoContext := (GoContext World).
Local Abbreviation beRoot := (beRoot World).
Local Abbreviation beBucket := (beBucket World).
Local Abbreviation beURL := (beURL World).
Local Abbreviation beFile := (beFile World).
Local Abbreviation state := (state World).
Local Abbreviation M := (M World).

(** ** Primitive steps *)

(** A step of the world that is not logged (the random source). *)
Definition step {L A} (call : World -> A * World) : M L A :=
  fun s => let (a, w) := call (world s) in
           Some (a, mkState w (roots s) (log s) (frame s)).

(** A call to the raw client: the world answers and the call is logged. *)
Definition raw {L A} (ev : event) (call : World -> A * World) : M L A :=
  fun s => let (a, w) := call (world s) in
           Some (a, mkState w (roots s) (log s ++ [ev]) (frame s)).

(** Reading the [beRoot] at address [r]. *)
Definition load {L} (r : ptr) : M L beRoot :=
  fun s => Some (roots s r, s).

(** [r.account = account; r.key = key]. *)
Definition store_credentials {L} (r : ptr) (a k : string) : M L unit :=
  fun s => Some (tt, mkState (world s)
                       (fun p => if Nat.eqb p r
                                 then {| account := a; key := k; b2i := b2i (roots s r) |}
                                 else roots s p)
                       (log s) (frame s)).

Definition get_frame {L} : M L L := fun s => Some (frame s, s).

Definition set_frame {L} (v : L) : M L unit :=
  fun s => Some (tt, mkState (world s) (roots s) (log s) v).

(** A function body with a captured variable of type [L'], initially [init],
    run from a caller whose own variable is of type [L]. *)
Definition with_local {L L' A} (init : L') (body : M L' A) : M L A :=
  fun s => match body (mkState (world s) (roots s) (log s) init) with
           | Some (a, s') => Some (a, mkState (world s') (roots s') (log s') (frame s))
           | None => None
           end.

(** The [select] of [withBackoff]: [Some (ctx.Err())] when the [ctx.Done()]
    case is taken, [None] when the timer fires. *)
Definition select_wait {L} (ctx : GoContext) (d : Z) : M L (option error) :=
  fun s => let (done, w) := select_Done ctx d (world s) in
           Some (if done then Some (ctx_Err ctx w) else None,
                 mkState w (roots s) (log s ++ [Waited d]) (frame s)).

(** ** beRoot's classification methods (lines 72-74) *)

Definition backoff {L} (r : ptr) (err : option error) : M L (Z * bool) :=
  root <- load r ;; ret (b2_backoff (b2i root) err).

Definition reauth {L} (r : ptr) (err : option error) : M L bool :=
  root <- load r ;; ret (b2_reauth (b2i root) err).

Definition transient {L} (r : ptr) (err : option error) : M L bool :=
  root <- load r ;; ret (b2_transient (b2i root) err).

(** ** jitter and getBackoff (lines 225-237) *)

Definition jitter (d : Z) : World -> Z * World :=
  fun w => let (draw, w') := rand_Float64 w in (jitter_of draw d, w').

Definition getBackoff (d : Z) : World -> Z * World :=
  fun w =>
    if 15 * Second <? d then
      let (j, w') := jitter d w in (wrap64 (d + j), w')
    else
      let (j, w') := jitter (wrap64 (d * 2)) w in (wrap64 (wrap64 (d * 2) + j), w').

(** ** withBackoff (lines 239-261)

    [withBackoff_loop] is the [for] loop, with the local [backoff] as an
    argument. *)

Fixpoint withBackoff_loop {L} (fuel : nat) (ctx : GoContext) (ri : ptr)
    (f : M L (bool * option error)) (backoff_ : Z) : M L (option error) :=
  match fuel with
  | O => out_of_fuel
  | S fuel' =>
      '(final, err) <- f ;;
      if final then ret err else
      t <- transient ri err ;;
      if negb t then ret err else
      '(bo, ok) <- backoff ri err ;;
      next <- (if ok then ret bo else step (getBackoff backoff_)) ;;
      cancelled <- select_wait ctx next ;;
      match cancelled with
      | Some e => ret (Some e)
      | None => withBackoff_loop fuel' ctx ri f next
      end
  end.

Definition withBackoff {L} (fuel : nat) (ctx : GoContext) (ri : ptr)
    (f : M L (bool * option error)) : M L (option error) :=
  withBackoff_loop fuel ctx ri f (500 * Millisecond).

(** ** authorizeAccount and reauthorizeAccount (lines 76-90) *)

Definition authorizeAccount {L} (fuel : nat) (r : ptr) (ctx : GoContext)
    (account_ key_ : string) : M L (option error) :=
  let f : M L (bool * option error) :=
    root <- load r ;;
    err <- raw (RawAuthorizeAccount account_ key_)
               (b2_authorizeAccount (b2i root) ctx account_ key_) ;;
    match err with
    | Some e => ret (false, Some e)
    | None =>
        store_credentials r account_ key_ ;;
        ret (true, None)
    end in
  withBackoff fuel ctx r f.

Definition reauthorizeAccount {L} (fuel : nat) (r : ptr) (ctx : GoContext)
    : M L (option error) :=
  root <- load r ;;
  authorizeAccount fuel r ctx (account root) (key root).

(** ** withReauth (lines 263-272) *)

Definition withReauth {L} (fuel : nat) (ctx : GoContext) (ri : ptr)
    (f : M L (option error)) : M L (option error) :=
  err <- f ;;
  again <- reauth ri err ;;
  if again then
    err' <- reauthorizeAccount fuel ri ctx ;;
    match err' with
    | Some e => ret (Some e)
    | None => f
    end
  else ret err.

End Operations.

Section Handles.

Context {World : Type} `{Runtime World}.

Local Open Scope call_scope.

Local Abbreviation GoContext := (GoContext World).
Local Abbreviation beBucket := (beBucket World).
Local Abbreviation beURL := (beURL World).
Local Abbreviation beFile := (beFile World).
Local Abbreviation M := (M World).

(** ** The operations of the handles (lines 92-223)

    In each of them [g] is the inner closure and [f] the attempt given to
    [withBackoff]. *)

Definition createBucket {L} (fuel : nat) (r : ptr) (ctx : GoContext)
    (name btype : string) : M L (option beBucket * option error) :=
  with_local (None : option beBucket) (
    let g : M (option beBucket) (option error) :=
      root <- load r ;;
      res <- raw (RawCreateBucket name btype)
                 (b2_createBucket (b2i root) ctx name btype) ;;
      match res with
      | inl err => ret (Some err)
      | inr bucket =>
          set_frame (Some {| b2bucket := bucket; bucket_ri := r |}) ;;
          ret None
      end in
    let f : M (option beBucket) (bool * option error) :=
      err <- withReauth fuel ctx r g ;;
      match err with
      | Some e => ret (false, Some e)
      | None => ret (true, None)
      end in
    err <- withBackoff fuel ctx r f ;;
    match err with
    | Some e => ret (None, Some e)
    | None => bi <- get_frame ;; ret (bi, None)
    end).

Definition listBuckets {L} (fuel : nat) (r : ptr) (ctx : GoContext)
    : M L (list beBucket * option error) :=
  with_local ([] : list beBucket) (
    let g : M (list beBucket) (option error) :=
      root <- load r ;;
      res <- raw RawListBuckets (b2_listBuckets (b2i root) ctx) ;;
      match res with
      | inl err => ret (Some err)
      | inr bs =>
          buckets <- get_frame ;;
          set_frame (buckets ++ map (fun b => {| b2bucket := b; bucket_ri := r |}) bs) ;;
          ret None
      end in
    let f : M (list beBucket) (bool * option error) :=
      err <- withReauth fuel ctx r g ;;
      match err with
      | Some e => ret (false, Some e)
      | None => ret (true, None)
      end in
    err <- withBackoff fuel ctx r f ;;
    match err with
    | Some e => ret ([], Some e)
    | None => buckets <- get_frame ;; ret (buckets, None)
    end).

Definition name (b : beBucket) : string := b2_name (b2bucket b).

Definition deleteBucket {L} (fuel : nat) (b : beBucket) (ctx : GoContext)
    : M L (option error) :=
  let f : M L (bool * option error) :=
    let g : M L (option error) :=
      raw RawDeleteBucket (b2_deleteBucket (b2bucket b) ctx) in
    err <- withReauth fuel ctx (bucket_ri b) g ;;
    match err with
    | Some e => ret (false, Some e)
    | None => ret (true, None)
    end in
  withBackoff fuel ctx (bucket_ri b) f.

Definition getUploadURL {L} (fuel : nat) (b : beBucket) (ctx : GoContext)
    : M L (option beURL * option error) :=
  with_local (None : option beURL) (
    let g : M (option beURL) (option error) :=
      res <- raw RawGetUploadURL (b2_getUploadURL (b2bucket b) ctx) ;;
      match res with
      | inl err => ret (Some err)
      | inr u =>
          set_frame (Some {| b2url := u; url_ri := bucket_ri b |}) ;;
          ret None
      end in
    let f : M (option beURL) (bool * option error) :=
      err <- withReauth fuel ctx (bucket_ri b) g ;;
      match err with
      | Some e => ret (false, Some e)
      | None => ret (true, None)
      end in
    err <- withBackoff fuel ctx (bucket_ri b) f ;;
    match err with
    | Some e => ret (None, Some e)
    | None => url <- get_frame ;; ret (url, None)
    end).

Definition uploadFile {L} (fuel : nat) (b : beURL) (ctx : GoContext)
    (r : io_Reader) (size : Z) (name_ ct sha1 : string)
    (info : list (string * string)) : M L (option beFile * option error) :=
  with_local (None : option beFile) (
    let g : M (option beFile) (option error) :=
      res <- raw (RawUploadFile name_)
                 (b2_uploadFile (b2url b) ctx r size name_ ct sha1 info) ;;
      match res with
      | inl err => ret (Some err)
      | inr f_ =>
          set_frame (Some {| b2file := f_; file_url := b; file_ri := url_ri b |}) ;;
          ret None
      end in
    let f : M (option beFile) (bool * option error) :=
      err <- withReauth fuel ctx (url_ri b) g ;;
      match err with
      | Some e => ret (false, Some e)
      | None => ret (true, None)
      end in
    err <- withBackoff fuel ctx (url_ri b) f ;;
    match err with
    | Some e => ret (None, Some e)
    | None => file <- get_frame ;; ret (file, None)
    end).

Definition deleteFileVersion {L} (fuel : nat) (b : beFile) (ctx : GoContext)
    : M L (option error) :=
  let f : M L (bool * option error) :=
    let g : M L (option error) :=
      raw RawDeleteFileVersion (b2_deleteFileVersion (b2file b) ctx) in
    err <- withReauth fuel ctx (file_ri b) g ;;
    match err with
    | Some e => ret (false, Some e)
    | None => ret (true, None)
    end in
  withBackoff fuel ctx (file_ri b) f.

End Handles.

Section Composition.

Context {World : Type} `{Runtime World}.

Local Open Scope call_scope.

Local Abbreviation GoContext := (GoContext World).
Local Abbreviation state := (state World).
Local Abbreviation M := (M World).

(** ** The composition of section 4.4 of the specification

    "call ReauthExecutor; treat any error from it as a normal retry-candidate
    error (non-final) to be classified by RetryExecutor's transient check, and
    any success as final".  These two definitions follow the specification's
    words; the operations above follow the source. *)

Definition spec_attempt {L} (reauth_wrapped : M L (option error))
    : M L (bool * option error) :=
  err <- reauth_wrapped ;;
  match err with
  | Some e => ret (false, Some e)
  | None => ret (true, None)
  end.

Definition spec_resilient {L} (fuel : nat) (ctx : GoContext) (session : ptr)
    (rawCall : M L (option error)) : M L (option error) :=
  withBackoff fuel ctx session (spec_attempt (withReauth fuel ctx session rawCall)).


(** ** Iterations of the loop of [withBackoff]

    [wait_duration] is the value given to [backoff] after a transient error
    (lines 249-254). *)

Definition wait_duration {L} (ri : ptr) (err : option error) (backoff_ : Z) : M L Z :=
  '(bo, ok) <- backoff ri err ;;
  if ok then ret bo else step (getBackoff backoff_).

(** The state after the [select] on which the timer fired or the context was
    done. *)
Definition after_wait {L} (s : state L) (d : Z) (w : World) : state L :=
  mkState w (roots s) (log s ++ [Waited d]) (frame s).

(** [retries ctx ri f k (b, s) (b', s')]: starting the loop body in state [s]
    with running backoff [b], [k] iterations in a row end in a wait on which
    the timer fires, and leave the loop in state [s'] with running backoff
    [b']. *)
Inductive retries {L} (ctx : GoContext) (ri : ptr) (f : M L (bool * option error))
    : nat -> Z * state L -> Z * state L -> Prop :=
| retries_O : forall bs, retries ctx ri f O bs bs
| retries_S : forall k b s e s1 next s2 w3 bs',
    f s = Some ((false, e), s1) ->
    b2_transient (b2i (roots s1 ri)) e = true ->
    wait_duration ri e b s1 = Some (next, s2) ->
    select_Done ctx next (world s2) = (false, w3) ->
    retries ctx ri f k (next, after_wait s2 next w3) bs' ->
    retries ctx ri f (S k) (b, s) bs'.

(** The waits recorded in a log, oldest first. *)
Fixpoint waits_of (l : list event) : list Z :=
  match l with
  | [] => []
  | Waited d :: l' => d :: waits_of l'
  | _ :: l' => waits_of l'
  end.

End Composition.

Section SpecOperations.

Context {World : Type} `{Runtime World}.

Local Open Scope call_scope.

Local Abbreviation GoContext := (GoContext World).
Local Abbreviation beBucket := (beBucket World).
Local Abbreviation beURL := (beURL World).
Local Abbreviation beFile := (beFile World).
Local Abbreviation M := (M World).

(** ** The operations as section 4.4 of the specification describes them

    "On success, the operation constructs and returns a new wrapped handle
    (for creation-type operations) carrying the Session reference forward; on
    failure, no handle is constructed and the error propagates to the
    caller."  [spec_create] is that description for an operation returning
    one handle, [spec_list] for one returning a list of handles; the
    [rawCall_] definitions are the raw calls with the construction of the
    handle. *)

Definition spec_create {L Handle} (fuel : nat) (ctx : GoContext) (session : ptr)
    (rawCall : M (option Handle) (option error)) : M L (option Handle * option error) :=
  with_local (None : option Handle) (
    err <- spec_resilient fuel ctx session rawCall ;;
    match err with
    | Some e => ret (None, Some e)
    | None => handle <- get_frame ;; ret (handle, None)
    end).

Definition spec_list {L Handle} (fuel : nat) (ctx : GoContext) (session : ptr)
    (rawCall : M (list Handle) (option error)) : M L (list Handle * option error) :=
  with_local ([] : list Handle) (
    err <- spec_resilient fuel ctx session rawCall ;;
    match err with
    | Some e => ret ([], Some e)
    | None => handles <- get_frame ;; ret (handles, None)
    end).

Definition rawCall_createBucket (r : ptr) (ctx : GoContext) (name btype : string)
    : M (option beBucket) (option error) :=
  root <- load r ;;
  res <- raw (RawCreateBucket name btype) (b2_createBucket (b2i root) ctx name btype) ;;
  match res with
  | inl err => ret (Some err)
  | inr bucket => set_frame (Some {| b2bucket := bucket; bucket_ri := r |}) ;; ret None
  end.

Definition rawCall_listBuckets (r : ptr) (ctx : GoContext)
    : M (list beBucket) (option error) :=
  root <- load r ;;
  res <- raw RawListBuckets (b2_listBuckets (b2i root) ctx) ;;
  match res with
  | inl err => ret (Some err)
  | inr bs =>
      buckets <- get_frame ;;
      set_frame (buckets ++ map (fun b => {| b2bucket := b; bucket_ri := r |}) bs) ;;
      ret None
  end.

Definition rawCall_getUploadURL (b : beBucket) (ctx : GoContext)
    : M (option beURL) (option error) :=
  res <- raw RawGetUploadURL (b2_getUploadURL (b2bucket b) ctx) ;;
  match res with
  | inl err => ret (Some err)
  | inr u => set_frame (Some {| b2url := u; url_ri := bucket_ri b |}) ;; ret None
  end.

Definition rawCall_uploadFile (b : beURL) (ctx : GoContext) (r : io_Reader)
    (size : Z) (name_ ct sha1 : string) (info : list (string * string))
    : M (option beFile) (option error) :=
  res <- raw (RawUploadFile name_)
             (b2_uploadFile (b2url b) ctx r size name_ ct sha1 info) ;;
  match res with
  | inl err => ret (Some err)
  | inr f_ =>
      set_frame (Some {| b2file := f_; file_url := b; file_ri := url_ri b |}) ;;
      ret None
  end.

End SpecOperations.

(** ** Sequences of waits *)





(** The entries that the authorize path writes to the log: calls of the raw
    [authorizeAccount] and the waits between them. *)
Definition authorize_path_event (ev : event) : Prop :=
  match ev with
  | RawAuthorizeAccount _ _ | Waited _ => True
  | _ => False
  end.

(** ** A scripted world

    The raw client answers from a script: one list of answers for the calls of
    the handles, one for [authorizeAccount], and one telling on which waits
    the context is done.  A list that has run out answers with success, and
    with a timer that fires. *)

Module Scenario.

Record script : Type := {
  op_answers : list (option error);
  auth_answers : list (option error);
  cancellations : list bool
}.

Definition next_op (w : script) : option error * script :=
  match op_answers w with
  | [] => (None, w)
  | a :: rest =>
      (a, {| op_answers := rest; auth_answers := auth_answers w;
             cancellations := cancellations w |})
  end.

Definition next_auth (w : script) : option error * script :=
  match auth_answers w with
  | [] => (None, w)
  | a :: rest =>
      (a, {| op_answers := op_answers w; auth_answers := rest;
             cancellations := cancellations w |})
  end.

Definition next_select (w : script) : bool * script :=
  match cancellations w with
  | [] => (false, w)
  | c :: rest =>
      (c, {| op_answers := op_answers w; auth_answers := auth_answers w;
             cancellations := rest |})
  end.

Definition handle_or_error {A} (v : A) (a : option error) : error + A :=
  match a with
  | Some e => inl e
  | None => inr v
  end.

(** Every draw of the random source is one half. *)
Definition draw_half : Runtime script := fun w => (1 # 2, w).

Definition ctx : GoContext script :=
  {| select_Done := fun _ w => next_select w;
     ctx_Err := fun _ => "context canceled"%string |}.

Definition raw_file : b2FileInterface script :=
  {| b2_deleteFileVersion := fun _ w => next_op w |}.

Definition raw_url : b2URLInterface script :=
  {| b2_uploadFile := fun _ _ _ _ _ _ _ w =>
       let (a, w') := next_op w in (handle_or_error raw_file a, w') |}.

Definition raw_bucket (n : string) : b2BucketInterface script :=
  {| b2_name := n;
     b2_deleteBucket := fun _ w => next_op w;
     b2_getUploadURL := fun _ w =>
       let (a, w') := next_op w in (handle_or_error raw_url a, w') |}.

(** Errors are classified by their text: "503" is transient, "401" asks for a
    reauthorization, and [reauth_nil] is the answer of [reauth] to [nil]. *)
Definition raw_root (reauth_nil : bool) : b2RootInterface script :=
  {| b2_backoff := fun _ => (0, false);
     b2_reauth := fun err =>
       match err with
       | Some e => String.eqb e "401"
       | None => reauth_nil
       end;
     b2_transient := fun err =>
       match err with
       | Some e => String.eqb e "503"
       | None => false
       end;
     b2_authorizeAccount := fun _ _ _ w => next_auth w;
     b2_createBucket := fun _ n _ w =>
       let (a, w') := next_op w in (handle_or_error (raw_bucket n) a, w');
     b2_listBuckets := fun _ w =>
       let (a, w') := next_op w in
       (handle_or_error [raw_bucket "a"; raw_bucket "b"] a, w') |}.

(** A classifier for which every error is transient, without override of the
    backoff. *)
Definition all_transient_root : b2RootInterface script :=
  {| b2_backoff := fun _ => (0, false);
     b2_reauth := fun _ => false;
     b2_transient := fun _ => true;
     b2_authorizeAccount := fun _ _ _ w => next_auth w;
     b2_createBucket := fun _ n _ w =>
       let (a, w') := next_op w in (handle_or_error (raw_bucket n) a, w');
     b2_listBuckets := fun _ w =>
       let (a, w') := next_op w in
       (handle_or_error [raw_bucket "a"; raw_bucket "b"] a, w') |}.

(** A classifier for which every error is transient and comes with an
    override of the backoff of five seconds. *)
Definition override_root : b2RootInterface script :=
  {| b2_backoff := fun _ => (5 * Second, true);
     b2_reauth := fun _ => false;
     b2_transient := fun _ => true;
     b2_authorizeAccount := fun _ _ _ w => next_auth w;
     b2_createBucket := fun _ n _ w =>
       let (a, w') := next_op w in (handle_or_error (raw_bucket n) a, w');
     b2_listBuckets := fun _ w =>
       let (a, w') := next_op w in
       (handle_or_error [raw_bucket "a"; raw_bucket "b"] a, w') |}.

(** Every draw of the random source is zero. *)
Definition draw_zero : Runtime script := fun w => (0%Q, w).

(** A context that is never done. *)
Definition background : GoContext script :=
  {| select_Done := fun _ w => (false, w);
     ctx_Err := fun _ => "context canceled"%string |}.

(** A unit of work that fails once for each answer left in the script, and
    then succeeds. *)
Definition flaky_work {L} : M script L (bool * option error) :=
  fun s =>
    match op_answers (world s) with
    | [] => Some ((true, None), mkState (world s) (roots s) (log s ++ [RawDeleteBucket]) (frame s))
    | _ :: rest =>
        Some ((false, Some "503"%string),
              mkState {| op_answers := rest; auth_answers := auth_answers (world s);
                         cancellations := cancellations (world s) |}
                      (roots s) (log s ++ [RawDeleteBucket]) (frame s))
    end.

Definition session (reauth_nil : bool) : ptr -> beRoot script :=
  fun _ => {| account := "acct"; key := "secret"; b2i := raw_root reauth_nil |}.

(** The same with the classifier for which every error is transient. *)
Definition transient_session : ptr -> beRoot script :=
  fun _ => {| account := "acct"; key := "secret"; b2i := all_transient_root |}.

Definition start_transient (ops : list (option error)) (cancels : list bool)
    : state script unit :=
  mkState {| op_answers := ops; auth_answers := []; cancellations := cancels |}
          transient_session [] tt.

(** The same with the classifier that overrides the backoff. *)
Definition start_override (ops : list (option error)) : state script unit :=
  mkState {| op_answers := ops; auth_answers := []; cancellations := [] |}
          (fun _ => {| account := "acct"; key := "secret"; b2i := override_root |})
          [] tt.


(** Handles on the scripted raw client, all on the session at address 0. *)
Definition bucket_handle : beBucket script :=
  {| b2bucket := raw_bucket "b"; bucket_ri := 0%nat |}.

Definition url_handle : beURL script :=
  {| b2url := raw_url; url_ri := 0%nat |}.

Definition file_handle : beFile script :=
  {| b2file := raw_file; file_url := url_handle; file_ri := 0%nat |}.

(** What a run shows: its result and its log. *)
Definition observed {L A} (run : option (A * state script L)) : option (A * list event) :=
  option_map (fun p => (fst p, log (snd p))) run.

(** The same for an operation that returns a handle, or a list of handles:
    whether there is a handle, or how many there are. *)
Definition observed_handle {L Handle}
    (run : option ((option Handle * option error) * state script L))
    : option (bool * option error * list event) :=
  option_map (fun p => (match fst (fst p) with Some _ => true | None => false end,
                        snd (fst p), log (snd p))) run.

Definition observed_handles {L Handle}
    (run : option ((list Handle * option error) * state script L))
    : option (nat * option error * list event) :=
  option_map (fun p => (List.length (fst (fst p)), snd (fst p), log (snd p))) run.

Definition start (reauth_nil : bool) (ops auths : list (option error))
    (cancels : list bool) : state script unit :=
  mkState {| op_answers := ops; auth_answers := auths; cancellations := cancels |}
          (session reauth_nil) [] tt.

End Scenario.

(** * Properties *)

(** ** jitter and getBackoff *)

Section Numeric.

Context {World : Type} `{Runtime World}.
















End Numeric.

(** ** The two executors *)

Section Executors.

Context {World : Type} `{Runtime World}.

Local Open Scope call_scope.

Local Abbreviation GoContext := (GoContext World).
Local Abbreviation state := (state World).
Local Abbreviation M := (M World).

Ltac unfold_calls :=
  cbv beta iota delta [bind ret load raw step get_frame set_frame store_credentials
    select_wait backoff reauth transient out_of_fuel after_wait] in *;
  cbn [world roots log frame] in *.

(** *** One iteration of the loop *)

Lemma loop_final {L} (n : nat) (ctx : GoContext) (ri : ptr)
    (f : M L (bool * option error)) (b : Z) (s s1 : state L) (err : option error) :
  f s = Some ((true, err), s1) ->
  withBackoff_loop (S n) ctx ri f b s = Some (err, s1).
Proof. intros Hf. simpl. unfold bind. rewrite Hf. reflexivity. Qed.

Lemma loop_not_transient {L} (n : nat) (ctx : GoContext) (ri : ptr)
    (f : M L (bool * option error)) (b : Z) (s s1 : state L) (err : option error) :
  f s = Some ((false, err), s1) ->
  b2_transient (b2i (roots s1 ri)) err = false ->
  withBackoff_loop (S n) ctx ri f b s = Some (err, s1).
Proof.
  intros Hf Ht. simpl. unfold_calls. rewrite Hf. simpl. rewrite Ht. reflexivity.
Qed.

Lemma loop_cancelled {L} (n : nat) (ctx : GoContext) (ri : ptr)
    (f : M L (bool * option error)) (b next : Z) (s s1 s2 : state L)
    (err : option error) (w3 : World) :
  f s = Some ((false, err), s1) ->
  b2_transient (b2i (roots s1 ri)) err = true ->
  wait_duration ri err b s1 = Some (next, s2) ->
  select_Done ctx next (world s2) = (true, w3) ->
  withBackoff_loop (S n) ctx ri f b s
  = Some (Some (ctx_Err ctx w3), after_wait s2 next w3).
Proof.
  intros Hf Ht Hw Hsel. simpl. unfold wait_duration in Hw. unfold_calls.
  rewrite Hf. simpl. rewrite Ht. simpl.
  destruct (b2_backoff (b2i (roots s1 ri)) err) as [bo [|]].
  - inversion Hw. subst. rewrite Hsel. reflexivity.
  - destruct (getBackoff b (world s1)) as [d w]. inversion Hw. subst. simpl in *.
    rewrite Hsel. reflexivity.
Qed.

Lemma loop_retry {L} (n : nat) (ctx : GoContext) (ri : ptr)
    (f : M L (bool * option error)) (b next : Z) (s s1 s2 : state L)
    (err : option error) (w3 : World) :
  f s = Some ((false, err), s1) ->
  b2_transient (b2i (roots s1 ri)) err = true ->
  wait_duration ri err b s1 = Some (next, s2) ->
  select_Done ctx next (world s2) = (false, w3) ->
  withBackoff_loop (S n) ctx ri f b s
  = withBackoff_loop n ctx ri f next (after_wait s2 next w3).
Proof.
  intros Hf Ht Hw Hsel. simpl. unfold wait_duration in Hw. unfold_calls.
  rewrite Hf. simpl. rewrite Ht. simpl.
  destruct (b2_backoff (b2i (roots s1 ri)) err) as [bo [|]].
  - inversion Hw. subst. rewrite Hsel. reflexivity.
  - destruct (getBackoff b (world s1)) as [d w]. inversion Hw. subst. simpl in *.
    rewrite Hsel. reflexivity.
Qed.

Lemma loop_retries {L} (ctx : GoContext) (ri : ptr) (f : M L (bool * option error))
    (k n : nat) (bs bs' : Z * state L) :
  retries ctx ri f k bs bs' ->
  withBackoff_loop (k + n) ctx ri f (fst bs) (snd bs)
  = withBackoff_loop n ctx ri f (fst bs') (snd bs').
Proof.
  induction 1 as [bs | k b s e s1 next s2 w3 bs' Hf Ht Hw Hsel _ IH].
  - reflexivity.
  - simpl fst in *. simpl snd in *. rewrite <- IH.
    change (S k + n)%nat with (S (k + n)).
    now apply loop_retry with (s1 := s1) (s2 := s2) (err := e).
Qed.

(** *** withReauth, case by case *)

Lemma withReauth_unchanged {L} (fuel : nat) (ctx : GoContext) (ri : ptr)
    (f : M L (option error)) (s s1 : state L) (err : option error) :
  f s = Some (err, s1) ->
  b2_reauth (b2i (roots s1 ri)) err = false ->
  withReauth fuel ctx ri f s = Some (err, s1).
Proof.
  intros Hf Hr. unfold withReauth. unfold_calls. rewrite Hf. simpl.
  rewrite Hr. reflexivity.
Qed.

Lemma withReauth_reauthorization_fails {L} (fuel : nat) (ctx : GoContext) (ri : ptr)
    (f : M L (option error)) (s s1 s2 : state L) (err : option error) (e2 : error) :
  f s = Some (err, s1) ->
  b2_reauth (b2i (roots s1 ri)) err = true ->
  reauthorizeAccount fuel ri ctx s1 = Some (Some e2, s2) ->
  withReauth fuel ctx ri f s = Some (Some e2, s2).
Proof.
  intros Hf Hr Ha. unfold withReauth. unfold_calls. rewrite Hf. simpl.
  rewrite Hr. rewrite Ha. reflexivity.
Qed.

Lemma withReauth_retries_once {L} (fuel : nat) (ctx : GoContext) (ri : ptr)
    (f : M L (option error)) (s s1 s2 : state L) (err : option error) :
  f s = Some (err, s1) ->
  b2_reauth (b2i (roots s1 ri)) err = true ->
  reauthorizeAccount fuel ri ctx s1 = Some (None, s2) ->
  withReauth fuel ctx ri f s = f s2.
Proof.
  intros Hf Hr Ha. unfold withReauth. unfold_calls. rewrite Hf. simpl.
  rewrite Hr. rewrite Ha. reflexivity.
Qed.


(** *** Relations kept by every run

    A relation between the state before and the state after that is kept by
    the steps of the loop is kept by the loop. *)

Section Kept.

Context {L : Type} (R : state L -> state L -> Prop).

Hypothesis R_trans : forall s1 s2 s3, R s1 s2 -> R s2 s3 -> R s1 s3.
Hypothesis R_wait : forall s w d,
  R s (mkState w (roots s) (log s ++ [Waited d]) (frame s)).

Lemma withBackoff_loop_keeps (ctx : GoContext) (ri : ptr)
    (f : M L (bool * option error)) :
  (forall s a s', f s = Some (a, s') -> R s s') ->
  forall fuel b s a s',
    withBackoff_loop fuel ctx ri f b s = Some (a, s') -> R s s'.
Proof.
  intros Hf. induction fuel as [| fuel IH]; intros b s a s' Hrun.
  - discriminate.
  - simpl in Hrun. unfold_calls.
    destruct (f s) as [[[final err] s1] |] eqn:Ef; [| discriminate].
    pose proof (Hf _ _ _ Ef) as R1.
    destruct final.
    { inversion Hrun; subst. exact R1. }
    destruct (b2_transient (b2i (roots s1 ri)) err); simpl in Hrun;
      [| inversion Hrun; subst; exact R1 ].
    destruct (b2_backoff (b2i (roots s1 ri)) err) as [bo ok].
    destruct ok.
    + destruct (select_Done ctx bo (world s1)) as [done w3].
      destruct done.
      * inversion Hrun; subst. eapply R_trans; [exact R1 | apply R_wait].
      * apply IH in Hrun. eapply R_trans; [exact R1 |].
        eapply R_trans; [| exact Hrun]. apply R_wait.
    + destruct (getBackoff b (world s1)) as [next w2]. simpl in Hrun.
      destruct (select_Done ctx next w2) as [done w3].
      destruct done.
      * inversion Hrun; subst. eapply R_trans; [exact R1 | apply R_wait].
      * apply IH in Hrun. eapply R_trans; [exact R1 |].
        eapply R_trans; [| exact Hrun]. apply R_wait.
Qed.

Hypothesis R_authorize : forall s w a k,
  R s (mkState w (roots s) (log s ++ [RawAuthorizeAccount a k]) (frame s)).
Hypothesis R_store : forall s rts, R s (mkState (world s) rts (log s) (frame s)).

Lemma authorizeAccount_keeps (fuel : nat) (r : ptr) (ctx : GoContext)
    (a k : string) (s s' : state L) (err : option error) :
  authorizeAccount fuel r ctx a k s = Some (err, s') -> R s s'.
Proof.
  unfold authorizeAccount, withBackoff. apply withBackoff_loop_keeps.
  clear s s' err. intros s x s'. unfold_calls.
  destruct (b2_authorizeAccount (b2i (roots s r)) ctx a k (world s)) as [[e |] w];
    intros E; inversion E; subst.
  - apply R_authorize.
  - eapply R_trans; [apply (R_authorize s w a k) |].
    apply (R_store (mkState w (roots s) (log s ++ [RawAuthorizeAccount a k]) (frame s))).
Qed.

Lemma reauthorizeAccount_keeps (fuel : nat) (r : ptr) (ctx : GoContext)
    (s s' : state L) (err : option error) :
  reauthorizeAccount fuel r ctx s = Some (err, s') -> R s s'.
Proof. unfold reauthorizeAccount. unfold_calls. apply authorizeAccount_keeps. Qed.

Lemma withReauth_keeps (fuel : nat) (ctx : GoContext) (ri : ptr)
    (f : M L (option error)) :
  (forall s a s', f s = Some (a, s') -> R s s') ->
  forall s a s', withReauth fuel ctx ri f s = Some (a, s') -> R s s'.
Proof.
  intros Hf s a s'. unfold withReauth. unfold_calls.
  destruct (f s) as [[err s1] |] eqn:Ef; [| discriminate].
  pose proof (Hf _ _ _ Ef) as R1.
  destruct (b2_reauth (b2i (roots s1 ri)) err).
  - destruct (reauthorizeAccount fuel ri ctx s1) as [[[e2 |] s2] |] eqn:Ea;
      [| | discriminate]; pose proof (reauthorizeAccount_keeps _ _ _ _ _ _ Ea) as R2.
    + intros E; inversion E; subst. eapply R_trans; eassumption.
    + intros E. apply Hf in E. eapply R_trans; [exact R1 |].
      eapply R_trans; eassumption.
  - intros E; inversion E; subst. exact R1.
Qed.

End Kept.

(** The authorize path leaves the captured variable alone, and logs nothing
    but calls of the raw [authorizeAccount] and waits. *)

Lemma reauthorizeAccount_frame {L} (fuel : nat) (r : ptr) (ctx : GoContext)
    (s s' : state L) (err : option error) :
  reauthorizeAccount fuel r ctx s = Some (err, s') -> frame s' = frame s.
Proof.
  apply (reauthorizeAccount_keeps (fun s s' => frame s' = frame s)); try reflexivity.
  intros s1 s2 s3 E1 E2. now rewrite E2.
Qed.

Lemma reauthorizeAccount_log {L} (fuel : nat) (r : ptr) (ctx : GoContext)
    (s s' : state L) (err : option error) :
  reauthorizeAccount fuel r ctx s = Some (err, s') ->
  exists l, log s' = log s ++ l /\ Forall authorize_path_event l.
Proof.
  apply (reauthorizeAccount_keeps
           (fun s s' => exists l, log s' = log s ++ l /\ Forall authorize_path_event l)).
  - intros s1 s2 s3 (l1 & E1 & F1) (l2 & E2 & F2). exists (l1 ++ l2). split.
    + rewrite E2, E1. symmetry. apply List.app_assoc.
    + apply Forall_app. now split.
  - intros s0 w d. exists [Waited d]. split; [reflexivity |].
    constructor; [exact I | constructor].
  - intros s0 w a k. exists [RawAuthorizeAccount a k]. split; [reflexivity |].
    constructor; [exact I | constructor].
  - intros s0 rts. exists []. split; [symmetry; apply List.app_nil_r | constructor].
Qed.

(** *** The claims on the executors *)

(** C2: when the first invocation of the wrapped operation returns an error
    that the classifier marks reauth-worthy, and the reauthorization succeeds,
    [withReauth] is: the operation, one run of the authorize path, the
    operation once more.  Its result is the result of that second invocation,
    whatever it is: a second reauth-worthy error is returned as it is.  The
    classification [t] of the first error as transient or not plays no part.
    Between the two invocations the log receives only calls of the raw
    [authorizeAccount] and waits.  Every run that returns has made at most one
    reauthorization: none, one that failed, or one followed by the single
    retry. *)
Theorem withReauth_one_reauthorization_one_retry {L} (fuel : nat) (ctx : GoContext)
    (ri : ptr) (f : M L (option error)) :
  (forall (s0 s1 s2 : state L) (err : option error) (t : bool),
      f s0 = Some (err, s1) ->
      b2_reauth (b2i (roots s1 ri)) err = true ->
      b2_transient (b2i (roots s1 ri)) err = t ->
      reauthorizeAccount fuel ri ctx s1 = Some (None, s2) ->
      withReauth fuel ctx ri f s0 = f s2
      /\ exists la, log s2 = log s1 ++ la /\ Forall authorize_path_event la)
  /\ (forall (s : state L) (res : option error * state L),
      withReauth fuel ctx ri f s = Some res ->
      (f s = Some res /\ b2_reauth (b2i (roots (snd res) ri)) (fst res) = false)
      \/ (exists err s1 e2,
            f s = Some (err, s1)
            /\ reauthorizeAccount fuel ri ctx s1 = Some (Some e2, snd res)
            /\ fst res = Some e2)
      \/ (exists err s1 s2,
            f s = Some (err, s1)
            /\ reauthorizeAccount fuel ri ctx s1 = Some (None, s2)
            /\ f s2 = Some res)).
Proof.
  split.
  - intros s0 s1 s2 err t Hf Hr _ Ha. split.
    + now apply withReauth_retries_once with (s1 := s1) (err := err).
    + now apply reauthorizeAccount_log in Ha.
  - intros s res. unfold withReauth. unfold_calls.
    destruct (f s) as [[err s1] |] eqn:Ef; [| discriminate].
    destruct (b2_reauth (b2i (roots s1 ri)) err) eqn:Er.
    + destruct (reauthorizeAccount fuel ri ctx s1) as [[[e2 |] s2] |] eqn:Ea;
        [| | discriminate].
      * intros E; inversion E; subst. right; left. exists err, s1, e2. auto.
      * intros E. right; right. exists err, s1, s2. auto.
    + intros E; inversion E; subst. left. auto.
Qed.

(** C4: when the context is done during a backoff wait of [withBackoff],
    after any number [k] of retries, [withBackoff] returns [ctx.Err()]; the
    error [e] that prompted the wait is discarded, and the state returned is
    the state as the [select] left it, so that nothing is invoked after the
    cancellation. *)
Theorem cancelled_wait_returns_context_error {L} (ctx : GoContext) (ri : ptr)
    (f : M L (bool * option error)) (k n : nat) (s0 s s1 s2 : state L)
    (b next : Z) (e : option error) (w3 : World) :
  retries ctx ri f k (500 * Millisecond, s0) (b, s) ->
  f s = Some ((false, e), s1) ->
  b2_transient (b2i (roots s1 ri)) e = true ->
  wait_duration ri e b s1 = Some (next, s2) ->
  select_Done ctx next (world s2) = (true, w3) ->
  withBackoff (k + S n) ctx ri f s0
  = Some (Some (ctx_Err ctx w3),
          mkState w3 (roots s2) (log s2 ++ [Waited next]) (frame s2)).
Proof.
  intros Hk Hf Ht Hw Hsel. unfold withBackoff.
  pose proof (loop_retries _ _ _ _ (S n) _ _ Hk) as E. cbn [fst snd] in E.
  rewrite E. now apply loop_cancelled with (s1 := s1) (err := e).
Qed.

(** C6: when the error of the wrapped operation is classified reauth-worthy
    and the reauthorization that follows fails with [e2], [withReauth] returns
    [e2] and the state the reauthorization left: the original error is
    discarded and the operation is not invoked a second time. *)
Theorem reauthorization_failure_takes_precedence {L} (fuel : nat) (ctx : GoContext)
    (ri : ptr) (f : M L (option error)) (s0 s1 s2 : state L)
    (err : option error) (e2 : error) :
  f s0 = Some (err, s1) ->
  b2_reauth (b2i (roots s1 ri)) err = true ->
  reauthorizeAccount fuel ri ctx s1 = Some (Some e2, s2) ->
  withReauth fuel ctx ri f s0 = Some (Some e2, s2).
Proof. apply withReauth_reauthorization_fails. Qed.

End Executors.

(** ** The operations of the handles *)

Section HandleClaims.

Context {World : Type} `{Runtime World}.

Local Open Scope call_scope.

Local Abbreviation GoContext := (GoContext World).
Local Abbreviation beBucket := (beBucket World).
Local Abbreviation beURL := (beURL World).
Local Abbreviation beFile := (beFile World).
Local Abbreviation state := (state World).
Local Abbreviation M := (M World).

Ltac unfold_calls :=
  cbv beta iota delta [bind ret load raw step get_frame set_frame store_credentials
    select_wait backoff reauth transient out_of_fuel after_wait with_local] in *;
  cbn [world roots log frame] in *.


Lemma spec_attempt_result {L} (call : M L (option error)) (s : state L) :
  spec_attempt call s
  = match call s with
    | Some (Some e, s') => Some ((false, Some e), s')
    | Some (None, s') => Some ((true, None), s')
    | None => None
    end.
Proof.
  unfold spec_attempt. unfold_calls.
  destruct (call s) as [[[e |] s'] |]; reflexivity.
Qed.


Ltac first_attempt Hraw :=
  cbv beta iota delta [withBackoff withBackoff_loop withReauth];
  unfold_calls; rewrite Hraw; cbn [world roots log frame].

(** C5: when the first raw invocation of a resilient operation fails with an
    error [e] that the classifier marks neither transient nor reauth-worthy,
    the operation returns [e] itself and no handle; the state it leaves is the
    state before with the world as that one raw call left it and that one call
    added to the log: no retry, no wait, no reauthorization. *)
Theorem permanent_error_returned_at_once :
  (forall L n r ctx account_ key_ (s : state L) e w',
      b2_authorizeAccount (b2i (roots s r)) ctx account_ key_ (world s) = (Some e, w') ->
      b2_transient (b2i (roots s r)) (Some e) = false ->
      authorizeAccount (S n) r ctx account_ key_ s
      = Some (Some e,
              mkState w' (roots s) (log s ++ [RawAuthorizeAccount account_ key_])
                      (frame s)))
  /\ (forall L n r ctx name btype (s : state L) e w',
      b2_createBucket (b2i (roots s r)) ctx name btype (world s) = (inl e, w') ->
      b2_reauth (b2i (roots s r)) (Some e) = false ->
      b2_transient (b2i (roots s r)) (Some e) = false ->
      createBucket (S n) r ctx name btype s
      = Some ((None, Some e),
              mkState w' (roots s) (log s ++ [RawCreateBucket name btype]) (frame s)))
  /\ (forall L n r ctx (s : state L) e w',
      b2_listBuckets (b2i (roots s r)) ctx (world s) = (inl e, w') ->
      b2_reauth (b2i (roots s r)) (Some e) = false ->
      b2_transient (b2i (roots s r)) (Some e) = false ->
      listBuckets (S n) r ctx s
      = Some (([], Some e), mkState w' (roots s) (log s ++ [RawListBuckets]) (frame s)))
  /\ (forall L n (b : beBucket) ctx (s : state L) e w',
      b2_deleteBucket (b2bucket b) ctx (world s) = (Some e, w') ->
      b2_reauth (b2i (roots s (bucket_ri b))) (Some e) = false ->
      b2_transient (b2i (roots s (bucket_ri b))) (Some e) = false ->
      deleteBucket (S n) b ctx s
      = Some (Some e, mkState w' (roots s) (log s ++ [RawDeleteBucket]) (frame s)))
  /\ (forall L n (b : beBucket) ctx (s : state L) e w',
      b2_getUploadURL (b2bucket b) ctx (world s) = (inl e, w') ->
      b2_reauth (b2i (roots s (bucket_ri b))) (Some e) = false ->
      b2_transient (b2i (roots s (bucket_ri b))) (Some e) = false ->
      getUploadURL (S n) b ctx s
      = Some ((None, Some e),
              mkState w' (roots s) (log s ++ [RawGetUploadURL]) (frame s)))
  /\ (forall L n (b : beURL) ctx r size name_ ct sha1 info (s : state L) e w',
      b2_uploadFile (b2url b) ctx r size name_ ct sha1 info (world s) = (inl e, w') ->
      b2_reauth (b2i (roots s (url_ri b))) (Some e) = false ->
      b2_transient (b2i (roots s (url_ri b))) (Some e) = false ->
      uploadFile (S n) b ctx r size name_ ct sha1 info s
      = Some ((None, Some e),
              mkState w' (roots s) (log s ++ [RawUploadFile name_]) (frame s)))
  /\ (forall L n (b : beFile) ctx (s : state L) e w',
      b2_deleteFileVersion (b2file b) ctx (world s) = (Some e, w') ->
      b2_reauth (b2i (roots s (file_ri b))) (Some e) = false ->
      b2_transient (b2i (roots s (file_ri b))) (Some e) = false ->
      deleteFileVersion (S n) b ctx s
      = Some (Some e, mkState w' (roots s) (log s ++ [RawDeleteFileVersion]) (frame s))).
Proof.
  repeat split.
  - intros L n r ctx account_ key_ s e w' Hraw Ht.
    unfold authorizeAccount. first_attempt Hraw. rewrite Ht. reflexivity.
  - intros L n r ctx name_ btype s e w' Hraw Hr Ht.
    unfold createBucket. first_attempt Hraw. rewrite Hr. unfold_calls. rewrite Ht. reflexivity.
  - intros L n r ctx s e w' Hraw Hr Ht.
    unfold listBuckets. first_attempt Hraw. rewrite Hr. unfold_calls. rewrite Ht. reflexivity.
  - intros L n b ctx s e w' Hraw Hr Ht.
    unfold deleteBucket. first_attempt Hraw. rewrite Hr. unfold_calls. rewrite Ht. reflexivity.
  - intros L n b ctx s e w' Hraw Hr Ht.
    unfold getUploadURL. first_attempt Hraw. rewrite Hr. unfold_calls. rewrite Ht. reflexivity.
  - intros L n b ctx r size name_ ct sha1 info s e w' Hraw Hr Ht.
    unfold uploadFile. first_attempt Hraw. rewrite Hr. unfold_calls. rewrite Ht. reflexivity.
  - intros L n b ctx s e w' Hraw Hr Ht.
    unfold deleteFileVersion. first_attempt Hraw. rewrite Hr. unfold_calls. rewrite Ht. reflexivity.
Qed.

(** *** What the captured variable holds

    A property of the captured variable that the raw call keeps is kept by the
    whole operation: the authorize path, the waits and the draws do not write
    the variable. *)

Lemma resilient_keeps_frame {L} (P : L -> Prop) (fuel : nat) (ctx : GoContext)
    (session : ptr) (rawCall : M L (option error)) :
  (forall s a s', rawCall s = Some (a, s') -> P (frame s) -> P (frame s')) ->
  forall s a s',
    spec_resilient fuel ctx session rawCall s = Some (a, s') ->
    P (frame s) -> P (frame s').
Proof.
  intros Hraw. unfold spec_resilient, withBackoff.
  intros s a s'.
  apply (withBackoff_loop_keeps (fun s s' => P (frame s) -> P (frame s'))).
  - auto.
  - auto.
  - clear s a s'. intros s a s'. rewrite spec_attempt_result.
    destruct (withReauth fuel ctx session rawCall s) as [[err s1] |] eqn:E;
      [| discriminate].
    assert (K : P (frame s) -> P (frame s1)).
    { revert E.
      apply (withReauth_keeps (fun s s' => P (frame s) -> P (frame s'))); auto. }
    destruct err; intros E'; inversion E'; subst; exact K.
Qed.

Lemma spec_create_result {L Handle} (P : Handle -> Prop) (fuel : nat)
    (ctx : GoContext) (session : ptr) (rawCall : M (option Handle) (option error)) :
  (forall s a s', rawCall s = Some (a, s') ->
     (forall h, frame s = Some h -> P h) -> (forall h, frame s' = Some h -> P h)) ->
  forall (s : state L) handle err s',
    spec_create fuel ctx session rawCall s = Some ((handle, err), s') ->
    (err <> None -> handle = None) /\ (forall h, handle = Some h -> P h).
Proof.
  intros Hraw s handle err s'. unfold spec_create, with_local.
  unfold bind at 1.
  destruct (spec_resilient fuel ctx session rawCall
              (mkState (world s) (roots s) (log s) None)) as [[e s1] |] eqn:E;
    [| discriminate].
  pose proof (resilient_keeps_frame (fun fr => forall h, fr = Some h -> P h)
                _ _ _ _ Hraw _ _ _ E) as K.
  cbn [frame] in K. specialize (K ltac:(discriminate)).
  destruct e as [e |]; unfold_calls; intros E'; inversion E'; subst.
  - split; [reflexivity | discriminate].
  - split; [intros C; now contradiction C | exact K].
Qed.

Lemma spec_list_result {L Handle} (P : Handle -> Prop) (fuel : nat)
    (ctx : GoContext) (session : ptr) (rawCall : M (list Handle) (option error)) :
  (forall s a s', rawCall s = Some (a, s') ->
     Forall P (frame s) -> Forall P (frame s')) ->
  forall (s : state L) handles err s',
    spec_list fuel ctx session rawCall s = Some ((handles, err), s') ->
    (err <> None -> handles = []) /\ Forall P handles.
Proof.
  intros Hraw s handles err s'. unfold spec_list, with_local.
  unfold bind at 1.
  destruct (spec_resilient fuel ctx session rawCall
              (mkState (world s) (roots s) (log s) [])) as [[e s1] |] eqn:E;
    [| discriminate].
  pose proof (resilient_keeps_frame (Forall P) _ _ _ _ Hraw _ _ _ E) as K.
  cbn [frame] in K. specialize (K ltac:(constructor)).
  destruct e as [e |]; unfold_calls; intros E'; inversion E'; subst.
  - split; [reflexivity | constructor].
  - split; [intros C; now contradiction C | exact K].
Qed.

(** C9: a handle returned by [createBucket], [listBuckets], [getUploadURL] or
    [uploadFile] holds the address of the [beRoot] that the handle it was
    created from holds (for [createBucket] and [listBuckets], the address of
    the [beRoot] itself), whatever retries, waits and reauthorizations the
    operation went through; a file handle also holds the upload target it was
    created from.  The handles hold an address and no credentials: these stay
    in the one [beRoot].  When the operation returns an error it returns no
    handle. *)
Theorem handles_share_the_session :
  (forall L fuel r ctx name btype (s s' : state L) bi err,
      createBucket fuel r ctx name btype s = Some ((bi, err), s') ->
      (err <> None -> bi = None) /\ (forall b, bi = Some b -> bucket_ri b = r))
  /\ (forall L fuel r ctx (s s' : state L) buckets err,
      listBuckets fuel r ctx s = Some ((buckets, err), s') ->
      (err <> None -> buckets = [])
      /\ Forall (fun b : beBucket => bucket_ri b = r) buckets)
  /\ (forall L fuel (b : beBucket) ctx (s s' : state L) url err,
      getUploadURL fuel b ctx s = Some ((url, err), s') ->
      (err <> None -> url = None)
      /\ (forall u, url = Some u -> url_ri u = bucket_ri b))
  /\ (forall L fuel (b : beURL) ctx r size name_ ct sha1 info (s s' : state L) file err,
      uploadFile fuel b ctx r size name_ ct sha1 info s = Some ((file, err), s') ->
      (err <> None -> file = None)
      /\ (forall x, file = Some x -> file_ri x = url_ri b /\ file_url x = b)).
Proof.
  repeat apply conj.
  - intros L fuel r ctx name_ btype s s' bi err.
    apply (spec_create_result (fun b : beBucket => bucket_ri b = r) fuel ctx r
             (rawCall_createBucket r ctx name_ btype)).
    intros s0 a s0'. unfold rawCall_createBucket. unfold_calls.
    destruct (b2_createBucket (b2i (roots s0 r)) ctx name_ btype (world s0))
      as [[e | bucket] w]; intros E K h Eh; inversion E; subst; cbn [frame] in Eh.
    + now apply K.
    + inversion Eh. reflexivity.
  - intros L fuel r ctx s s' buckets err.
    apply (spec_list_result (fun b : beBucket => bucket_ri b = r) fuel ctx r
             (rawCall_listBuckets r ctx)).
    intros s0 a s0'. unfold rawCall_listBuckets. unfold_calls.
    destruct (b2_listBuckets (b2i (roots s0 r)) ctx (world s0))
      as [[e | bs] w]; intros E K; inversion E; subst; cbn [frame].
    + exact K.
    + apply Forall_app. split; [exact K |].
      apply Forall_forall. intros x Hx. apply in_map_iff in Hx.
      destruct Hx as (raw_b & Ex & _). now subst x.
  - intros L fuel b ctx s s' url err.
    apply (spec_create_result (fun u : beURL => url_ri u = bucket_ri b) fuel ctx
             (bucket_ri b) (rawCall_getUploadURL b ctx)).
    intros s0 a s0'. unfold rawCall_getUploadURL. unfold_calls.
    destruct (b2_getUploadURL (b2bucket b) ctx (world s0))
      as [[e | u] w]; intros E K h Eh; inversion E; subst; cbn [frame] in Eh.
    + now apply K.
    + inversion Eh. reflexivity.
  - intros L fuel b ctx r size name_ ct sha1 info s s' file err.
    apply (spec_create_result
             (fun x : beFile => file_ri x = url_ri b /\ file_url x = b) fuel ctx
             (url_ri b) (rawCall_uploadFile b ctx r size name_ ct sha1 info)).
    intros s0 a s0'. unfold rawCall_uploadFile. unfold_calls.
    destruct (b2_uploadFile (b2url b) ctx r size name_ ct sha1 info (world s0))
      as [[e | f_] w]; intros E K h Eh; inversion E; subst; cbn [frame] in Eh.
    + now apply K.
    + inversion Eh. split; reflexivity.
Qed.

(** C10: [withReauth] gives the result of the wrapped operation to the
    reauth classifier also when it is [nil].  With [reauth(nil) = true] a
    successful call is followed by a reauthorization, and (unless that one
    fails, in which case its error is returned) by a second invocation of the
    operation, whose result is the result of [withReauth].  [listBuckets] then
    returns the buckets of its first raw call followed by those of the second:
    each raw bucket twice when both calls list the same buckets.  With
    [reauth(nil) = false] a successful call is the only invocation of the
    attempt. *)
Theorem reauth_classifier_sees_nil :
  (forall L fuel ctx ri (f : M L (option error)) (s0 s1 : state L),
      f s0 = Some (None, s1) ->
      b2_reauth (b2i (roots s1 ri)) None = true ->
      withReauth fuel ctx ri f s0
      = (err' <- reauthorizeAccount fuel ri ctx ;;
         match err' with
         | Some e => ret (Some e)
         | None => f
         end) s1)
  /\ (forall L n r ctx (s : state L) bs1 w1 s2 bs2 w3,
      let wrap := map (fun b => {| b2bucket := b; bucket_ri := r |}) in
      b2_listBuckets (b2i (roots s r)) ctx (world s) = (inr bs1, w1) ->
      b2_reauth (b2i (roots s r)) None = true ->
      reauthorizeAccount (S n) r ctx
        (mkState w1 (roots s) (log s ++ [RawListBuckets]) (wrap bs1))
      = Some (None, s2) ->
      b2_listBuckets (b2i (roots s2 r)) ctx (world s2) = (inr bs2, w3) ->
      listBuckets (S n) r ctx s
      = Some ((wrap bs1 ++ wrap bs2, None),
              mkState w3 (roots s2) (log s2 ++ [RawListBuckets]) (frame s)))
  /\ (forall L fuel ctx ri (f : M L (option error)) (s0 s1 : state L),
      f s0 = Some (None, s1) ->
      b2_reauth (b2i (roots s1 ri)) None = false ->
      withReauth fuel ctx ri f s0 = Some (None, s1)).
Proof.
  repeat apply conj.
  - intros L fuel ctx ri f s0 s1 Hf Hr. unfold withReauth. unfold_calls.
    rewrite Hf. cbn [roots]. rewrite Hr. reflexivity.
  - intros L n r ctx s bs1 w1 s2 bs2 w3 wrap H1 Hr Ha H2.
    pose proof (reauthorizeAccount_frame _ _ _ _ _ _ Ha) as Efr. cbn [frame] in Efr.
    change (listBuckets (S n) r ctx s)
      with (spec_list (S n) ctx r (rawCall_listBuckets r ctx) s).
    unfold spec_list, with_local, spec_resilient, withBackoff. unfold bind at 1.
    assert (G2 : rawCall_listBuckets r ctx s2
                 = Some (None, mkState w3 (roots s2) (log s2 ++ [RawListBuckets])
                                       (wrap bs1 ++ wrap bs2))).
    { unfold rawCall_listBuckets. unfold_calls. rewrite H2, Efr. reflexivity. }
    rewrite (loop_final n ctx r _ _ _
               (mkState w3 (roots s2) (log s2 ++ [RawListBuckets])
                        (wrap bs1 ++ wrap bs2)) None).
    + reflexivity.
    + rewrite spec_attempt_result.
      rewrite (withReauth_retries_once (S n) ctx r _ _
                 (mkState w1 (roots s) (log s ++ [RawListBuckets]) (wrap bs1))
                 s2 None).
      * rewrite G2. reflexivity.
      * unfold rawCall_listBuckets. unfold_calls. rewrite H1. reflexivity.
      * exact Hr.
      * exact Ha.
  - intros L fuel ctx ri f s0 s1 Hf Hr.
    now apply withReauth_unchanged.
Qed.

End HandleClaims.

(** ** A unit of work that fails N times and then succeeds *)










Section FailsThenSucceeds.

Context {World : Type} `{Runtime World}.

Local Abbreviation GoContext := (GoContext World).
Local Abbreviation state := (state World).
Local Abbreviation M := (M World).

Context {L : Type} (ctx : GoContext) (ri : ptr) (f : M L (bool * option error)).

(** [ev] is what one invocation of the work writes to the log, [pending w]
    the number of invocations that still fail in world [w], and [classifier]
    the raw client of the session. *)
Variable ev : event.
Variable pending : World -> nat.
Variable classifier : b2RootInterface World.

Hypothesis draws_in_range : forall w, (0 <= fst (rand_Float64 w) < 1)%Q.
Hypothesis draw_keeps_pending : forall w, pending (snd (rand_Float64 w)) = pending w.
Hypothesis timer_fires : forall d w,
  fst (select_Done ctx d w) = false
  /\ pending (snd (select_Done ctx d w)) = pending w.
Hypothesis every_error_transient : forall e, b2_transient classifier e = true.
Hypothesis no_backoff_override : forall e, snd (b2_backoff classifier e) = false.
Hypothesis work_fails : forall s k,
  pending (world s) = S k -> b2i (roots s ri) = classifier ->
  exists e s',
    f s = Some ((false, e), s')
    /\ pending (world s') = k
    /\ b2i (roots s' ri) = classifier
    /\ log s' = log s ++ [ev].
Hypothesis work_succeeds : forall s,
  pending (world s) = O -> b2i (roots s ri) = classifier ->
  exists s', f s = Some ((true, None), s') /\ log s' = log s ++ [ev].



End FailsThenSucceeds.

(** * The theorems at concrete inputs *)

Section Instances.

Import Scenario.

Local Open Scope string_scope.


(** Six transient failures in a row, every draw being 0.5: the wait doubles
    (plus 2%) up to the first value above 15s, and then grows by 2%. *)
Example six_waits :
  option_map (fun p => waits_of (log (snd p)))
    (withBackoff (H := draw_half) 7 background 0%nat flaky_work
       (start_transient (repeat (Some "503") 6) []))
  = Some [1020000000; 2080800000; 4244832000; 8659457280; 17665292851;
          18018598708].
Proof. vm_compute. reflexivity. Qed.

(** A transient failure, then an expired session, then success: one wait, one
    reauthorization with the stored credentials, three raw calls. *)
Example deleteBucket_recovers :
  observed (deleteBucket (H := draw_half) 5 bucket_handle ctx
              (start false [Some "503"; Some "401"; None] [] []))
  = Some (None, [RawDeleteBucket; Waited 1020000000; RawDeleteBucket;
                 RawAuthorizeAccount "acct" "secret"; RawDeleteBucket]).
Proof. vm_compute. reflexivity. Qed.

(** [authorizeAccount] stores the credentials only after the raw call has
    succeeded. *)
Example credentials_stored_on_success :
  option_map (fun p => (fst p, account (roots (snd p) 0%nat), key (roots (snd p) 0%nat)))
    (authorizeAccount (H := draw_half) 5 0%nat ctx "acct2" "key2"
       (start false [] [Some "503"; None] []))
  = Some (None, "acct2", "key2")
  /\ option_map (fun p => (fst p, account (roots (snd p) 0%nat), key (roots (snd p) 0%nat)))
       (authorizeAccount (H := draw_half) 5 0%nat ctx "acct2" "key2"
          (start false [] [Some "403"] []))
     = Some (Some "403", "acct", "secret").
Proof. split; vm_compute; reflexivity. Qed.





Lemma withReauth_one_reauthorization_one_retry_witness :
  let f : M script unit (option error) := raw RawDeleteBucket next_op in
  let s0 := start false [Some "401"; None] [] [] in
  exists s1 s2,
    f s0 = Some (Some "401", s1)
    /\ b2_reauth (b2i (roots s1 0%nat)) (Some "401") = true
    /\ b2_transient (b2i (roots s1 0%nat)) (Some "401") = false
    /\ reauthorizeAccount (H := draw_half) 2 0%nat ctx s1 = Some (None, s2)
    /\ withReauth (H := draw_half) 2 ctx 0%nat f s0 = f s2
    /\ observed (f s2)
       = Some (None, [RawDeleteBucket; RawAuthorizeAccount "acct" "secret";
                      RawDeleteBucket]).
Proof.
  intros f s0. eexists. eexists.
  split; [reflexivity |]. split; [reflexivity |]. split; [reflexivity |].
  split; [reflexivity |]. split.
  - refine (proj1 (proj1 (withReauth_one_reauthorization_one_retry
                            (H := draw_half) 2 ctx 0%nat f)
                     s0 _ _ (Some "401") false _ _ _ _));
      reflexivity.
  - reflexivity.
Defined.

Lemma cancelled_wait_returns_context_error_witness :
  let f : M script unit (bool * option error) := flaky_work in
  let s0 := start_transient [Some "503"; Some "503"] [false; true] in
  exists s s1 s2 b next w3,
    retries (H := draw_half) ctx 0%nat f 1 (500 * Millisecond, s0) (b, s)
    /\ f s = Some ((false, Some "503"), s1)
    /\ b2_transient (b2i (roots s1 0%nat)) (Some "503") = true
    /\ wait_duration (H := draw_half) 0%nat (Some "503") b s1 = Some (next, s2)
    /\ select_Done ctx next (world s2) = (true, w3)
    /\ observed (withBackoff (H := draw_half) (1 + 1) ctx 0%nat f s0)
       = Some (Some "context canceled",
               [RawDeleteBucket; Waited 1020000000; RawDeleteBucket;
                Waited 2080800000]).
Proof.
  intros f s0. do 6 eexists.
  assert (R1 : retries (H := draw_half) ctx 0%nat f 1 (500 * Millisecond, s0)
                 (1020000000,
                  mkState {| op_answers := [Some "503"]; auth_answers := [];
                             cancellations := [true] |}
                          transient_session
                          [RawDeleteBucket; Waited 1020000000] tt)).
  { eapply retries_S; [reflexivity | reflexivity | reflexivity | reflexivity |].
    apply retries_O. }
  split; [exact R1 |].
  split; [reflexivity |]. split; [reflexivity |].
  split; [reflexivity |]. split; [reflexivity |].
  rewrite (cancelled_wait_returns_context_error (H := draw_half) ctx 0%nat f 1 0
             s0 _ _ _ _ _ (Some "503") _ R1 eq_refl eq_refl eq_refl eq_refl).
  reflexivity.
Defined.

Lemma reauthorization_failure_takes_precedence_witness :
  let f : M script unit (option error) := raw RawDeleteBucket next_op in
  let s0 := start false [Some "401"; None] [Some "403"] [] in
  exists s1 s2,
    f s0 = Some (Some "401", s1)
    /\ b2_reauth (b2i (roots s1 0%nat)) (Some "401") = true
    /\ reauthorizeAccount (H := draw_half) 2 0%nat ctx s1 = Some (Some "403", s2)
    /\ withReauth (H := draw_half) 2 ctx 0%nat f s0 = Some (Some "403", s2)
    /\ log s2 = [RawDeleteBucket; RawAuthorizeAccount "acct" "secret"].
Proof.
  intros f s0. eexists. eexists.
  split; [reflexivity |]. split; [reflexivity |]. split; [reflexivity |].
  split.
  - refine (reauthorization_failure_takes_precedence (H := draw_half) 2 ctx 0%nat f
              s0 _ _ (Some "401") "403" _ _ _); reflexivity.
  - reflexivity.
Defined.

Lemma permanent_error_returned_at_once_witness :
  let s0 := start false [Some "500"] [Some "500"] [] in
  b2_reauth (raw_root false) (Some "500") = false
  /\ b2_transient (raw_root false) (Some "500") = false
  /\ fst (b2_authorizeAccount (raw_root false) ctx "a" "k" (world s0)) = Some "500"
  /\ fst (next_op (world s0)) = Some "500"
  /\ observed (authorizeAccount (H := draw_half) 1 0%nat ctx "a" "k" s0)
     = Some (Some "500", [RawAuthorizeAccount "a" "k"])
  /\ observed (createBucket (H := draw_half) 1 0%nat ctx "b" "allPrivate" s0)
     = Some ((None, Some "500"), [RawCreateBucket "b" "allPrivate"])
  /\ observed (listBuckets (H := draw_half) 1 0%nat ctx s0)
     = Some (([], Some "500"), [RawListBuckets])
  /\ observed (deleteBucket (H := draw_half) 1 bucket_handle ctx s0)
     = Some (Some "500", [RawDeleteBucket])
  /\ observed (getUploadURL (H := draw_half) 1 bucket_handle ctx s0)
     = Some ((None, Some "500"), [RawGetUploadURL])
  /\ observed (uploadFile (H := draw_half) 1 url_handle ctx 0%nat 3 "f" "text/plain"
                 "sha1" [] s0)
     = Some ((None, Some "500"), [RawUploadFile "f"])
  /\ observed (deleteFileVersion (H := draw_half) 1 file_handle ctx s0)
     = Some (Some "500", [RawDeleteFileVersion]).
Proof.
  intros s0.
  destruct (permanent_error_returned_at_once (H := draw_half))
    as (A & B & C & D & E & F & G).
  split; [reflexivity |]. split; [reflexivity |].
  split; [reflexivity |]. split; [reflexivity |].
  split; [rewrite (A unit 0%nat 0%nat ctx "a" "k" s0 "500" _ eq_refl eq_refl);
          reflexivity |].
  split; [rewrite (B unit 0%nat 0%nat ctx "b" "allPrivate" s0 "500" _
                     eq_refl eq_refl eq_refl); reflexivity |].
  split; [rewrite (C unit 0%nat 0%nat ctx s0 "500" _ eq_refl eq_refl eq_refl);
          reflexivity |].
  split; [rewrite (D unit 0%nat bucket_handle ctx s0 "500" _ eq_refl eq_refl eq_refl);
          reflexivity |].
  split; [rewrite (E unit 0%nat bucket_handle ctx s0 "500" _ eq_refl eq_refl eq_refl);
          reflexivity |].
  split; [rewrite (F unit 0%nat url_handle ctx 0%nat 3 "f" "text/plain" "sha1" [] s0
                     "500" _ eq_refl eq_refl eq_refl); reflexivity |].
  rewrite (G unit 0%nat file_handle ctx s0 "500" _ eq_refl eq_refl eq_refl).
  reflexivity.
Defined.

Lemma handles_share_the_session_witness :
  match createBucket (H := draw_half) 3 7%nat ctx "b" "allPrivate"
          (start false [Some "503"; Some "503"; None] [] []) with
  | Some ((Some bi, None), s') =>
      bucket_ri bi = 7%nat
      /\ log s' = [RawCreateBucket "b" "allPrivate"; Waited 1020000000;
                   RawCreateBucket "b" "allPrivate"; Waited 2080800000;
                   RawCreateBucket "b" "allPrivate"]
  | _ => False
  end
  /\ match listBuckets (H := draw_half) 3 7%nat ctx (start false [] [] []) with
     | Some ((buckets, None), s') =>
         List.length buckets = 2%nat
         /\ Forall (fun b : beBucket script => bucket_ri b = 7%nat) buckets
     | _ => False
     end
  /\ match getUploadURL (H := draw_half) 3 bucket_handle ctx
             (start false [Some "401"; None] [] []) with
     | Some ((Some url, None), s') => url_ri url = bucket_ri bucket_handle
     | _ => False
     end
  /\ match uploadFile (H := draw_half) 3 url_handle ctx 0%nat 3 "f" "text/plain"
             "sha1" [] (start false [Some "401"; None] [] []) with
     | Some ((Some file, None), s') =>
         file_ri file = url_ri url_handle
         /\ file_url file = url_handle
         /\ log s' = [RawUploadFile "f"; RawAuthorizeAccount "acct" "secret";
                      RawUploadFile "f"]
     | _ => False
     end.
Proof.
  destruct (handles_share_the_session (H := draw_half)) as (A & B & C & D).
  split; [| split; [| split]].
  - assert (V : observed_handle
                  (createBucket (H := draw_half) 3 7%nat ctx "b" "allPrivate"
                     (start false [Some "503"; Some "503"; None] [] []))
                = Some (true, None,
                        [RawCreateBucket "b" "allPrivate"; Waited 1020000000;
                         RawCreateBucket "b" "allPrivate"; Waited 2080800000;
                         RawCreateBucket "b" "allPrivate"]))
      by (vm_compute; reflexivity).
    destruct (createBucket (H := draw_half) 3 7%nat ctx "b" "allPrivate"
                (start false [Some "503"; Some "503"; None] [] []))
      as [[[[bi |] [e |]] s'] |] eqn:E; try discriminate V.
    cbn [observed_handle option_map fst snd] in V. injection V as Elog.
    split; [| exact Elog].
    exact (proj2 (A _ _ _ _ _ _ _ _ _ _ E) bi eq_refl).
  - assert (V : observed_handles
                  (listBuckets (H := draw_half) 3 7%nat ctx (start false [] [] []))
                = Some (2%nat, None, [RawListBuckets]))
      by (vm_compute; reflexivity).
    destruct (listBuckets (H := draw_half) 3 7%nat ctx (start false [] [] []))
      as [[[buckets [e |]] s'] |] eqn:E; try discriminate V.
    cbn [observed_handles option_map fst snd] in V. injection V as Elen _.
    split; [exact Elen |].
    exact (proj2 (B _ _ _ _ _ _ _ _ E)).
  - assert (V : observed_handle
                  (getUploadURL (H := draw_half) 3 bucket_handle ctx
                     (start false [Some "401"; None] [] []))
                = Some (true, None,
                        [RawGetUploadURL; RawAuthorizeAccount "acct" "secret";
                         RawGetUploadURL]))
      by (vm_compute; reflexivity).
    destruct (getUploadURL (H := draw_half) 3 bucket_handle ctx
                (start false [Some "401"; None] [] []))
      as [[[[url |] [e |]] s'] |] eqn:E; try discriminate V.
    exact (proj2 (C _ _ _ _ _ _ _ _ E) url eq_refl).
  - assert (V : observed_handle
                  (uploadFile (H := draw_half) 3 url_handle ctx 0%nat 3 "f"
                     "text/plain" "sha1" [] (start false [Some "401"; None] [] []))
                = Some (true, None,
                        [RawUploadFile "f"; RawAuthorizeAccount "acct" "secret";
                         RawUploadFile "f"]))
      by (vm_compute; reflexivity).
    destruct (uploadFile (H := draw_half) 3 url_handle ctx 0%nat 3 "f"
                "text/plain" "sha1" [] (start false [Some "401"; None] [] []))
      as [[[[file |] [e |]] s'] |] eqn:E; try discriminate V.
    cbn [observed_handle option_map fst snd] in V. injection V as Elog.
    destruct (proj2 (D _ _ _ _ _ _ _ _ _ _ _ _ _ _ E) file eq_refl) as [E1 E2].
    split; [exact E1 |]. split; [exact E2 | exact Elog].
Defined.

Lemma reauth_classifier_sees_nil_witness :
  let f : M script unit (option error) := raw RawDeleteBucket next_op in
  (exists s1,
      f (start true [] [] []) = Some (None, s1)
      /\ b2_reauth (b2i (roots s1 0%nat)) None = true
      /\ observed (withReauth (H := draw_half) 2 ctx 0%nat f (start true [] [] []))
         = Some (None, [RawDeleteBucket; RawAuthorizeAccount "acct" "secret";
                        RawDeleteBucket]))
  /\ (b2_reauth (b2i (roots (start true [] [] []) 0%nat)) None = true
      /\ option_map (fun p => map name (fst (fst p)))
           (listBuckets (H := draw_half) 1 0%nat ctx (start true [] [] []))
         = Some ["a"; "b"; "a"; "b"])
  /\ (exists s1,
      f (start false [] [] []) = Some (None, s1)
      /\ b2_reauth (b2i (roots s1 0%nat)) None = false
      /\ withReauth (H := draw_half) 2 ctx 0%nat f (start false [] [] [])
         = Some (None, s1)
      /\ log s1 = [RawDeleteBucket]).
Proof.
  intros f.
  destruct (reauth_classifier_sees_nil (H := draw_half)) as (A & B & C).
  repeat apply conj.
  - eexists. split; [reflexivity |]. split; [reflexivity |].
    rewrite (A unit 2%nat ctx 0%nat f (start true [] [] []) _ eq_refl eq_refl).
    reflexivity.
  - reflexivity.
  - rewrite (B unit 0%nat 0%nat ctx (start true [] [] [])
               [raw_bucket "a"; raw_bucket "b"] _ _
               [raw_bucket "a"; raw_bucket "b"] _
               eq_refl eq_refl eq_refl eq_refl).
    reflexivity.
  - eexists. split; [reflexivity |]. split; [reflexivity |]. split; [| reflexivity].
    exact (C unit 2%nat ctx 0%nat f (start false [] [] []) _ eq_refl eq_refl).
Defined.







End Instances.

(** * Further properties of the code *)

Section Further.

Context {World : Type} `{Runtime World}.

Local Open Scope call_scope.

Local Abbreviation GoContext := (GoContext World).
Local Abbreviation beBucket := (beBucket World).
Local Abbreviation beURL := (beURL World).
Local Abbreviation beFile := (beFile World).
Local Abbreviation state := (state World).
Local Abbreviation M := (M World).

Ltac unfold_calls :=
  cbv beta iota delta [bind ret load raw step get_frame set_frame store_credentials
    select_wait backoff reauth transient out_of_fuel after_wait with_local] in *;
  cbn [world roots log frame] in *.

(** ** A rule for the loop: what holds of the result

    [I] holds when an iteration starts and [Q] of what [withBackoff] returns;
    [I] does not depend on the world or on the log, which the waits change,
    and [Q] holds of the error of the context. *)

Section LoopResult.

Context {L : Type} (ctx : GoContext) (ri : ptr) (f : M L (bool * option error)).
Context (I : state L -> Prop) (Q : option error -> state L -> Prop).

Hypothesis I_env : forall s w l, I s -> I (mkState w (roots s) l (frame s)).
Hypothesis Q_cancel : forall s w l w',
  I s -> Q (Some (ctx_Err ctx w')) (mkState w (roots s) l (frame s)).
Hypothesis f_final : forall s err s1, I s -> f s = Some ((true, err), s1) -> Q err s1.
Hypothesis f_again : forall s err s1,
  I s -> f s = Some ((false, err), s1) -> Q err s1 /\ I s1.

Lemma withBackoff_loop_result :
  forall fuel b s err s',
    I s -> withBackoff_loop fuel ctx ri f b s = Some (err, s') -> Q err s'.
Proof.
  induction fuel as [| fuel IH]; intros b s err s' Hi Hrun; [discriminate |].
  simpl in Hrun. unfold_calls.
  destruct (f s) as [[[final e] s1] |] eqn:Ef; [| discriminate].
  destruct final.
  { inversion Hrun; subst. now apply f_final with (s := s). }
  destruct (f_again _ _ _ Hi Ef) as [Hq Hi1].
  destruct (b2_transient (b2i (roots s1 ri)) e); simpl in Hrun;
    [| inversion Hrun; subst; exact Hq].
  destruct (b2_backoff (b2i (roots s1 ri)) e) as [bo ok].
  destruct ok.
  - destruct (select_Done ctx bo (world s1)) as [done w3].
    destruct done.
    + inversion Hrun; subst. now apply Q_cancel.
    + apply IH in Hrun; [exact Hrun | now apply I_env].
  - destruct (getBackoff b (world s1)) as [next w2]. simpl in Hrun.
    destruct (select_Done ctx next w2) as [done w3].
    destruct done.
    + inversion Hrun; subst. now apply Q_cancel.
    + apply IH in Hrun; [exact Hrun | now apply I_env].
Qed.

End LoopResult.

(** The three ways in which [withReauth] returns. *)
Lemma withReauth_cases {L} (fuel : nat) (ctx : GoContext) (ri : ptr)
    (f : M L (option error)) (s s' : state L) (res : option error) :
  withReauth fuel ctx ri f s = Some (res, s') ->
  (f s = Some (res, s') /\ b2_reauth (b2i (roots s' ri)) res = false)
  \/ (exists err s1 e2,
        f s = Some (err, s1)
        /\ b2_reauth (b2i (roots s1 ri)) err = true
        /\ reauthorizeAccount fuel ri ctx s1 = Some (Some e2, s')
        /\ res = Some e2)
  \/ (exists err s1 s2,
        f s = Some (err, s1)
        /\ b2_reauth (b2i (roots s1 ri)) err = true
        /\ reauthorizeAccount fuel ri ctx s1 = Some (None, s2)
        /\ f s2 = Some (res, s')).
Proof.
  unfold withReauth. unfold_calls.
  destruct (f s) as [[err s1] |] eqn:Ef; [| discriminate].
  destruct (b2_reauth (b2i (roots s1 ri)) err) eqn:Er.
  - destruct (reauthorizeAccount fuel ri ctx s1) as [[[e2 |] s2] |] eqn:Ea;
      [| | discriminate].
    + intros E; inversion E; subst. right; left. exists err, s1, e2. auto.
    + intros E. right; right. exists err, s1, s2. auto.
  - intros E; inversion E; subst. left. auto.
Qed.

(** ** The credentials of a session *)

Lemma authorizeAccount_roots {L} (fuel : nat) (r : ptr) (ctx : GoContext)
    (a k : string) (s s' : state L) (err : option error) :
  authorizeAccount fuel r ctx a k s = Some (err, s') ->
  match err with
  | None =>
      roots s' = (fun p => if Nat.eqb p r
                           then {| account := a; key := k; b2i := b2i (roots s r) |}
                           else roots s p)
  | Some _ => roots s' = roots s
  end.
Proof.
  unfold authorizeAccount, withBackoff. intros Hrun.
  refine (withBackoff_loop_result ctx r _
            (fun s1 => roots s1 = roots s)
            (fun err s1 =>
               match err with
               | None =>
                   roots s1 = (fun p => if Nat.eqb p r
                                        then {| account := a; key := k;
                                                b2i := b2i (roots s r) |}
                                        else roots s p)
               | Some _ => roots s1 = roots s
               end)
            _ _ _ _ fuel _ s err s' eq_refl Hrun).
  - intros s1 w l E. exact E.
  - intros s1 w l w' E. exact E.
  - intros s1 e s2 E. unfold_calls.
    destruct (b2_authorizeAccount (b2i (roots s1 r)) ctx a k (world s1)) as [[e1 |] w];
      intros Ef; inversion Ef; subst. cbn [roots]. rewrite E. reflexivity.
  - intros s1 e s2 E. unfold_calls.
    destruct (b2_authorizeAccount (b2i (roots s1 r)) ctx a k (world s1)) as [[e1 |] w];
      intros Ef; inversion Ef; subst. cbn [roots]. split; exact E.
Qed.

Lemma authorizeAccount_log {L} (fuel : nat) (r : ptr) (ctx : GoContext)
    (a k : string) (s s' : state L) (err : option error) :
  authorizeAccount fuel r ctx a k s = Some (err, s') ->
  frame s' = frame s
  /\ exists l, log s' = log s ++ l
               /\ Forall (fun ev => ev = RawAuthorizeAccount a k
                                    \/ exists d, ev = Waited d) l.
Proof.
  unfold authorizeAccount, withBackoff.
  apply (withBackoff_loop_keeps
           (fun s s' =>
              frame s' = frame s
              /\ exists l, log s' = log s ++ l
                           /\ Forall (fun ev => ev = RawAuthorizeAccount a k
                                                \/ exists d, ev = Waited d) l)).
  - intros s1 s2 s3 (F1 & l1 & E1 & P1) (F2 & l2 & E2 & P2). split; [congruence |].
    exists (l1 ++ l2). split.
    + rewrite E2, E1. symmetry. apply List.app_assoc.
    + apply Forall_app. now split.
  - intros s0 w d. split; [reflexivity |]. exists [Waited d]. split; [reflexivity |].
    constructor; [right; now exists d | constructor].
  - clear s s' err. intros s x s'. unfold_calls.
    destruct (b2_authorizeAccount (b2i (roots s r)) ctx a k (world s)) as [[e |] w];
      intros E; inversion E; subst; cbn [frame log]; (split; [reflexivity |]);
      exists [RawAuthorizeAccount a k]; (split; [reflexivity |]);
      (constructor; [now left | constructor]).
Qed.

Lemma reauthorizeAccount_roots {L} (fuel : nat) (r : ptr) (ctx : GoContext)
    (s s' : state L) (err : option error) :
  reauthorizeAccount fuel r ctx s = Some (err, s') ->
  forall p, roots s' p = roots s p.
Proof.
  unfold reauthorizeAccount. unfold_calls. intros Hrun p.
  apply authorizeAccount_roots in Hrun. destruct err as [e |].
  - now rewrite Hrun.
  - rewrite Hrun. destruct (Nat.eqb p r) eqn:Ep; [| reflexivity].
    apply Nat.eqb_eq in Ep. subst p. now destruct (roots s r).
Qed.

(** X1: [authorizeAccount] writes the credentials of the session only when it
    returns without error, and then writes both of them: the account and the
    key it was given, at the address of the session, whose raw client stays.
    When it returns an error, no session has been written, whatever number of
    attempts and waits came before.  The other sessions and the captured
    variable of the caller are never written. *)
Theorem authorizeAccount_stores_on_success_only {L} (fuel : nat) (r : ptr)
    (ctx : GoContext) (a k : string) (s s' : state L) (err : option error) :
  authorizeAccount fuel r ctx a k s = Some (err, s') ->
  (err = None ->
     roots s' r = {| account := a; key := k; b2i := b2i (roots s r) |})
  /\ (err <> None -> roots s' = roots s)
  /\ (forall p, p <> r -> roots s' p = roots s p)
  /\ frame s' = frame s.
Proof.
  intros Hrun. pose proof (authorizeAccount_roots _ _ _ _ _ _ _ _ Hrun) as Hr.
  pose proof (authorizeAccount_log _ _ _ _ _ _ _ _ Hrun) as [Hf _].
  destruct err as [e |].
  - split; [discriminate |]. split; [intros _; exact Hr |].
    split; [intros p _; now rewrite Hr | exact Hf].
  - split; [intros _; rewrite Hr; now rewrite Nat.eqb_refl |].
    split; [intros C; now contradiction C |].
    split; [| exact Hf].
    intros p Hp. rewrite Hr. apply Nat.eqb_neq in Hp. now rewrite Hp.
Qed.

Lemma reauthorizeAccount_effects {L} (fuel : nat) (r : ptr)
    (ctx : GoContext) (s s' : state L) (err : option error) :
  reauthorizeAccount fuel r ctx s = Some (err, s') ->
  (forall p, roots s' p = roots s p)
  /\ frame s' = frame s
  /\ exists l,
       log s' = log s ++ l
       /\ Forall (fun ev =>
                    ev = RawAuthorizeAccount (account (roots s r)) (key (roots s r))
                    \/ exists d, ev = Waited d) l.
Proof.
  intros Hrun. split; [now apply reauthorizeAccount_roots with (1 := Hrun) |].
  unfold reauthorizeAccount in Hrun. unfold_calls.
  now apply authorizeAccount_log in Hrun.
Qed.

(** X2: [reauthorizeAccount] replays [authorizeAccount] with the credentials
    the session holds: every call of the raw [authorizeAccount] it makes
    carries the stored account and key, it makes no other raw call, and
    whether it succeeds or fails it leaves every session, and the captured
    variable of its caller, as they were. *)
Theorem reauthorizeAccount_replays_stored_credentials {L} (fuel : nat) (r : ptr)
    (ctx : GoContext) (s s' : state L) (err : option error) :
  reauthorizeAccount fuel r ctx s = Some (err, s') ->
  (forall p, roots s' p = roots s p)
  /\ frame s' = frame s
  /\ exists l,
       log s' = log s ++ l
       /\ Forall (fun ev =>
                    ev = RawAuthorizeAccount (account (roots s r)) (key (roots s r))
                    \/ exists d, ev = Waited d) l.
Proof. apply reauthorizeAccount_effects. Qed.

(** ** What an operation of a handle does to the sessions and to the log *)

(** The entries an operation may write: its own raw call [ev], calls of the
    raw [authorizeAccount] with the credentials [a] and [k], and waits. *)
Local Abbreviation allowed ev a k :=
  (fun e : event => e = ev \/ e = RawAuthorizeAccount a k \/ exists d, e = Waited d).

Lemma allowed_app (ev : event) (a k : string) (l1 l2 : list event) :
  Forall (allowed ev a k) l1 -> Forall (allowed ev a k) l2 ->
  Forall (allowed ev a k) (l1 ++ l2).
Proof. intros F1 F2. apply Forall_app. now split. Qed.

Lemma authorize_entries_allowed (ev : event) (a k : string) (l : list event) :
  Forall (fun e => e = RawAuthorizeAccount a k \/ exists d, e = Waited d) l ->
  Forall (allowed ev a k) l.
Proof. apply Forall_impl. intros e [E | E]; auto. Qed.

Lemma withReauth_effects {L} (fuel : nat) (ctx : GoContext) (r : ptr)
    (rawCall : M L (option error)) (ev : event) :
  (forall s a s', rawCall s = Some (a, s') ->
     roots s' = roots s /\ log s' = log s ++ [ev]) ->
  forall s a s',
    withReauth fuel ctx r rawCall s = Some (a, s') ->
    (forall p, roots s' p = roots s p)
    /\ exists l, log s' = log s ++ l
                 /\ Forall (allowed ev (account (roots s r)) (key (roots s r))) l.
Proof.
  intros Hraw s a s' Hrun.
  assert (One : Forall (allowed ev (account (roots s r)) (key (roots s r))) [ev])
    by (constructor; [now left | constructor]).
  destruct (withReauth_cases _ _ _ _ _ _ _ Hrun)
    as [[Hf _] | [(err & s1 & e2 & Hf & _ & Ha & _) | (err & s1 & s2 & Hf & _ & Ha & Hf2)]].
  - destruct (Hraw _ _ _ Hf) as [Er El]. split; [intros p; now rewrite Er |].
    exists [ev]. split; [exact El | exact One].
  - destruct (Hraw _ _ _ Hf) as [Er El].
    destruct (reauthorizeAccount_effects _ _ _ _ _ _ Ha) as (Ra & _ & la & Ela & Fa).
    rewrite Er in Fa. split; [intros p; rewrite Ra; now rewrite Er |].
    exists ([ev] ++ la). split.
    + rewrite Ela, El. symmetry. apply List.app_assoc.
    + apply allowed_app; [exact One | now apply authorize_entries_allowed].
  - destruct (Hraw _ _ _ Hf) as [Er El].
    destruct (reauthorizeAccount_effects _ _ _ _ _ _ Ha) as (Ra & _ & la & Ela & Fa).
    destruct (Hraw _ _ _ Hf2) as [Er2 El2].
    rewrite Er in Fa. split; [intros p; rewrite Er2, Ra; now rewrite Er |].
    exists (([ev] ++ la) ++ [ev]). split.
    + rewrite El2, Ela, El. rewrite <- !List.app_assoc. reflexivity.
    + apply allowed_app; [apply allowed_app |];
        [exact One | now apply authorize_entries_allowed | exact One].
Qed.

Lemma resilient_effects {L} (fuel : nat) (ctx : GoContext) (r : ptr)
    (rawCall : M L (option error)) (ev : event) :
  (forall s a s', rawCall s = Some (a, s') ->
     roots s' = roots s /\ log s' = log s ++ [ev]) ->
  forall s a s',
    spec_resilient fuel ctx r rawCall s = Some (a, s') ->
    (forall p, roots s' p = roots s p)
    /\ exists l, log s' = log s ++ l
                 /\ Forall (allowed ev (account (roots s r)) (key (roots s r))) l.
Proof.
  intros Hraw s a s' Hrun.
  set (P := allowed ev (account (roots s r)) (key (roots s r))).
  set (Inv := fun s1 : state L => forall p, roots s1 p = roots s p).
  assert (K : Inv s -> Inv s' /\ exists l, log s' = log s ++ l /\ Forall P l).
  { revert Hrun. unfold spec_resilient, withBackoff.
    apply (withBackoff_loop_keeps
             (fun s1 s2 => Inv s1 ->
                Inv s2 /\ exists l, log s2 = log s1 ++ l /\ Forall P l)).
    - intros s1 s2 s3 R12 R23 I1.
      destruct (R12 I1) as (I2 & l1 & E1 & F1).
      destruct (R23 I2) as (I3 & l2 & E2 & F2).
      split; [exact I3 |]. exists (l1 ++ l2). split.
      + rewrite E2, E1. symmetry. apply List.app_assoc.
      + apply Forall_app. now split.
    - intros s1 w d I1. split; [exact I1 |]. exists [Waited d].
      split; [reflexivity |]. constructor; [| constructor].
      right; right. now exists d.
    - intros s1 x s2. rewrite spec_attempt_result.
      destruct (withReauth fuel ctx r rawCall s1) as [[err s3] |] eqn:E;
        [| discriminate].
      destruct (withReauth_effects _ _ _ _ _ Hraw _ _ _ E) as (Rr & l & El & Fl).
      intros Ex I1.
      assert (s3 = s2) by (destruct err; inversion Ex; reflexivity). subst s3.
      split; [intros p; rewrite Rr; apply I1 |].
      exists l. split; [exact El |]. unfold P. rewrite <- (I1 r). exact Fl. }
  apply K. intros p. reflexivity.
Qed.

Lemma spec_create_effects {L Handle} (fuel : nat) (ctx : GoContext) (r : ptr)
    (rawCall : M (option Handle) (option error)) (ev : event) :
  (forall s a s', rawCall s = Some (a, s') ->
     roots s' = roots s /\ log s' = log s ++ [ev]) ->
  forall (s : state L) res s',
    spec_create fuel ctx r rawCall s = Some (res, s') ->
    (forall p, roots s' p = roots s p)
    /\ exists l, log s' = log s ++ l
                 /\ Forall (allowed ev (account (roots s r)) (key (roots s r))) l.
Proof.
  intros Hraw s res s'. unfold spec_create, with_local. unfold bind at 1.
  destruct (spec_resilient fuel ctx r rawCall
              (mkState (world s) (roots s) (log s) None)) as [[e s1] |] eqn:E;
    [| discriminate].
  apply (resilient_effects _ _ _ _ _ Hraw) in E. cbn [roots log] in E.
  destruct e; unfold_calls; intros E'; inversion E'; subst; exact E.
Qed.

Lemma spec_list_effects {L Handle} (fuel : nat) (ctx : GoContext) (r : ptr)
    (rawCall : M (list Handle) (option error)) (ev : event) :
  (forall s a s', rawCall s = Some (a, s') ->
     roots s' = roots s /\ log s' = log s ++ [ev]) ->
  forall (s : state L) res s',
    spec_list fuel ctx r rawCall s = Some (res, s') ->
    (forall p, roots s' p = roots s p)
    /\ exists l, log s' = log s ++ l
                 /\ Forall (allowed ev (account (roots s r)) (key (roots s r))) l.
Proof.
  intros Hraw s res s'. unfold spec_list, with_local. unfold bind at 1.
  destruct (spec_resilient fuel ctx r rawCall
              (mkState (world s) (roots s) (log s) [])) as [[e s1] |] eqn:E;
    [| discriminate].
  apply (resilient_effects _ _ _ _ _ Hraw) in E. cbn [roots log] in E.
  destruct e; unfold_calls; intros E'; inversion E'; subst; exact E.
Qed.

Ltac raw_call_effects call :=
  let E := fresh "E" in
  unfold_calls;
  destruct call as [[? | ?] ?]; intros E; inversion E; subst;
  cbn [roots log]; split; reflexivity.

(** X3: an operation of a handle, however it ends, leaves every session as it
    was: the credentials and the raw client of each [beRoot] are those from
    before the call, also after reauthorizations.  And the only calls it makes
    to the raw client are its own raw call and [authorizeAccount] with the
    credentials the session holds; the rest of what it adds to the log are
    waits. *)
Theorem handle_operations_leave_the_sessions :
  (forall L fuel r ctx name btype (s s' : state L) res,
      createBucket fuel r ctx name btype s = Some (res, s') ->
      (forall p, roots s' p = roots s p)
      /\ exists l, log s' = log s ++ l
           /\ Forall (fun e => e = RawCreateBucket name btype
                        \/ e = RawAuthorizeAccount (account (roots s r)) (key (roots s r))
                        \/ exists d, e = Waited d) l)
  /\ (forall L fuel r ctx (s s' : state L) res,
      listBuckets fuel r ctx s = Some (res, s') ->
      (forall p, roots s' p = roots s p)
      /\ exists l, log s' = log s ++ l
           /\ Forall (fun e => e = RawListBuckets
                        \/ e = RawAuthorizeAccount (account (roots s r)) (key (roots s r))
                        \/ exists d, e = Waited d) l)
  /\ (forall L fuel (b : beBucket) ctx (s s' : state L) res,
      deleteBucket fuel b ctx s = Some (res, s') ->
      (forall p, roots s' p = roots s p)
      /\ exists l, log s' = log s ++ l
           /\ Forall (fun e => e = RawDeleteBucket
                        \/ e = RawAuthorizeAccount (account (roots s (bucket_ri b)))
                                                   (key (roots s (bucket_ri b)))
                        \/ exists d, e = Waited d) l)
  /\ (forall L fuel (b : beBucket) ctx (s s' : state L) res,
      getUploadURL fuel b ctx s = Some (res, s') ->
      (forall p, roots s' p = roots s p)
      /\ exists l, log s' = log s ++ l
           /\ Forall (fun e => e = RawGetUploadURL
                        \/ e = RawAuthorizeAccount (account (roots s (bucket_ri b)))
                                                   (key (roots s (bucket_ri b)))
                        \/ exists d, e = Waited d) l)
  /\ (forall L fuel (b : beURL) ctx rd size name_ ct sha1 info (s s' : state L) res,
      uploadFile fuel b ctx rd size name_ ct sha1 info s = Some (res, s') ->
      (forall p, roots s' p = roots s p)
      /\ exists l, log s' = log s ++ l
           /\ Forall (fun e => e = RawUploadFile name_
                        \/ e = RawAuthorizeAccount (account (roots s (url_ri b)))
                                                   (key (roots s (url_ri b)))
                        \/ exists d, e = Waited d) l)
  /\ (forall L fuel (b : beFile) ctx (s s' : state L) res,
      deleteFileVersion fuel b ctx s = Some (res, s') ->
      (forall p, roots s' p = roots s p)
      /\ exists l, log s' = log s ++ l
           /\ Forall (fun e => e = RawDeleteFileVersion
                        \/ e = RawAuthorizeAccount (account (roots s (file_ri b)))
                                                   (key (roots s (file_ri b)))
                        \/ exists d, e = Waited d) l).
Proof.
  split; [| split; [| split; [| split; [| split]]]].
  - intros L fuel r ctx name_ btype s s' res.
    apply (spec_create_effects fuel ctx r (rawCall_createBucket r ctx name_ btype)).
    unfold rawCall_createBucket.
    intros s0 a s0'.
    raw_call_effects (b2_createBucket (b2i (roots s0 r)) ctx name_ btype (world s0)).
  - intros L fuel r ctx s s' res.
    apply (spec_list_effects fuel ctx r (rawCall_listBuckets r ctx)).
    unfold rawCall_listBuckets.
    intros s0 a s0'.
    raw_call_effects (b2_listBuckets (b2i (roots s0 r)) ctx (world s0)).
  - intros L fuel b ctx s s' res.
    apply (resilient_effects fuel ctx (bucket_ri b)
             (raw RawDeleteBucket (b2_deleteBucket (b2bucket b) ctx))).
    intros s0 a s0'. unfold_calls.
    destruct (b2_deleteBucket (b2bucket b) ctx (world s0)) as [e w].
    intros E; inversion E; subst. split; reflexivity.
  - intros L fuel b ctx s s' res.
    apply (spec_create_effects fuel ctx (bucket_ri b) (rawCall_getUploadURL b ctx)).
    unfold rawCall_getUploadURL.
    intros s0 a s0'.
    raw_call_effects (b2_getUploadURL (b2bucket b) ctx (world s0)).
  - intros L fuel b ctx rd size name_ ct sha1 info s s' res.
    apply (spec_create_effects fuel ctx (url_ri b)
             (rawCall_uploadFile b ctx rd size name_ ct sha1 info)).
    unfold rawCall_uploadFile.
    intros s0 a s0'.
    raw_call_effects (b2_uploadFile (b2url b) ctx rd size name_ ct sha1 info (world s0)).
  - intros L fuel b ctx s s' res.
    apply (resilient_effects fuel ctx (file_ri b)
             (raw RawDeleteFileVersion (b2_deleteFileVersion (b2file b) ctx))).
    intros s0 a s0'. unfold_calls.
    destruct (b2_deleteFileVersion (b2file b) ctx (world s0)) as [e w].
    intros E; inversion E; subst. split; reflexivity.
Qed.

(** ** Success on the first attempt *)

Ltac first_success Hraw :=
  cbv beta iota delta [withBackoff withBackoff_loop withReauth];
  unfold_calls; rewrite Hraw; cbn [world roots log frame].

(** X4: when the first raw call of an operation succeeds (and, for the
    operations that go through [withReauth], the classifier does not ask for a
    reauthorization on [nil]), the operation returns at once: that one raw call
    is all it adds to the log, the handle it returns wraps what the raw call
    returned and holds the address of the session, and [authorizeAccount] has
    stored the account and the key.  Neither the transient classifier nor the
    context is consulted: a success is never retried, and a context that is
    already done does not prevent the first attempt. *)
Theorem success_returned_at_once :
  (forall L n r ctx account_ key_ (s : state L) w',
      b2_authorizeAccount (b2i (roots s r)) ctx account_ key_ (world s) = (None, w') ->
      authorizeAccount (S n) r ctx account_ key_ s
      = Some (None,
              mkState w'
                (fun p => if Nat.eqb p r
                          then {| account := account_; key := key_;
                                  b2i := b2i (roots s r) |}
                          else roots s p)
                (log s ++ [RawAuthorizeAccount account_ key_]) (frame s)))
  /\ (forall L n r ctx name btype (s : state L) bucket w',
      b2_createBucket (b2i (roots s r)) ctx name btype (world s) = (inr bucket, w') ->
      b2_reauth (b2i (roots s r)) None = false ->
      createBucket (S n) r ctx name btype s
      = Some ((Some {| b2bucket := bucket; bucket_ri := r |}, None),
              mkState w' (roots s) (log s ++ [RawCreateBucket name btype]) (frame s)))
  /\ (forall L n r ctx (s : state L) bs w',
      b2_listBuckets (b2i (roots s r)) ctx (world s) = (inr bs, w') ->
      b2_reauth (b2i (roots s r)) None = false ->
      listBuckets (S n) r ctx s
      = Some ((map (fun b => {| b2bucket := b; bucket_ri := r |}) bs, None),
              mkState w' (roots s) (log s ++ [RawListBuckets]) (frame s)))
  /\ (forall L n (b : beBucket) ctx (s : state L) w',
      b2_deleteBucket (b2bucket b) ctx (world s) = (None, w') ->
      b2_reauth (b2i (roots s (bucket_ri b))) None = false ->
      deleteBucket (S n) b ctx s
      = Some (None, mkState w' (roots s) (log s ++ [RawDeleteBucket]) (frame s)))
  /\ (forall L n (b : beBucket) ctx (s : state L) u w',
      b2_getUploadURL (b2bucket b) ctx (world s) = (inr u, w') ->
      b2_reauth (b2i (roots s (bucket_ri b))) None = false ->
      getUploadURL (S n) b ctx s
      = Some ((Some {| b2url := u; url_ri := bucket_ri b |}, None),
              mkState w' (roots s) (log s ++ [RawGetUploadURL]) (frame s)))
  /\ (forall L n (b : beURL) ctx rd size name_ ct sha1 info (s : state L) f_ w',
      b2_uploadFile (b2url b) ctx rd size name_ ct sha1 info (world s) = (inr f_, w') ->
      b2_reauth (b2i (roots s (url_ri b))) None = false ->
      uploadFile (S n) b ctx rd size name_ ct sha1 info s
      = Some ((Some {| b2file := f_; file_url := b; file_ri := url_ri b |}, None),
              mkState w' (roots s) (log s ++ [RawUploadFile name_]) (frame s)))
  /\ (forall L n (b : beFile) ctx (s : state L) w',
      b2_deleteFileVersion (b2file b) ctx (world s) = (None, w') ->
      b2_reauth (b2i (roots s (file_ri b))) None = false ->
      deleteFileVersion (S n) b ctx s
      = Some (None, mkState w' (roots s) (log s ++ [RawDeleteFileVersion]) (frame s))).
Proof.
  split; [| split; [| split; [| split; [| split; [| split]]]]].
  - intros L n r ctx account_ key_ s w' Hraw.
    unfold authorizeAccount. first_success Hraw. reflexivity.
  - intros L n r ctx name_ btype s bucket w' Hraw Hr.
    unfold createBucket. first_success Hraw. rewrite Hr. reflexivity.
  - intros L n r ctx s bs w' Hraw Hr.
    unfold listBuckets. first_success Hraw. rewrite Hr. reflexivity.
  - intros L n b ctx s w' Hraw Hr.
    unfold deleteBucket. first_success Hraw. rewrite Hr. reflexivity.
  - intros L n b ctx s u w' Hraw Hr.
    unfold getUploadURL. first_success Hraw. rewrite Hr. reflexivity.
  - intros L n b ctx rd size name_ ct sha1 info s f_ w' Hraw Hr.
    unfold uploadFile. first_success Hraw. rewrite Hr. reflexivity.
  - intros L n b ctx s w' Hraw Hr.
    unfold deleteFileVersion. first_success Hraw. rewrite Hr. reflexivity.
Qed.

(** ** What an operation returns when it returns no error *)

Section ResilientSuccess.

Context {L : Type} (fuel : nat) (ctx : GoContext) (r : ptr)
        (rawCall : M L (option error)).
Context (I Q : state L -> Prop).

(** [I] depends on the sessions and on the captured variable only. *)
Hypothesis I_same : forall s s',
  (forall p, roots s' p = roots s p) -> frame s' = frame s -> I s -> I s'.
(** A raw call that succeeds establishes [Q]; one after which the operation
    goes on keeps [I]. *)
Hypothesis raw_effect : forall s a s',
  I s -> rawCall s = Some (a, s') ->
  (a = None -> Q s')
  /\ (a <> None -> I s')
  /\ (b2_reauth (b2i (roots s' r)) a = true -> I s').

Lemma resilient_success :
  forall s s', I s -> spec_resilient fuel ctx r rawCall s = Some (None, s') -> Q s'.
Proof.
  intros s s' Hi Hrun. unfold spec_resilient, withBackoff in Hrun.
  refine (withBackoff_loop_result ctx r _ I (fun err s1 => err = None -> Q s1)
            _ _ _ _ fuel _ s None s' Hi Hrun eq_refl).
  - intros s1 w l. apply I_same; reflexivity.
  - intros s1 w l w' _. discriminate.
  - intros s1 err s2 Hi1. rewrite spec_attempt_result.
    destruct (withReauth fuel ctx r rawCall s1) as [[res s3] |] eqn:E; [| discriminate].
    destruct res as [e |]; intros Ex; inversion Ex; subst. intros _.
    destruct (withReauth_cases _ _ _ _ _ _ _ E)
      as [[Hf _] | [(err & s4 & e2 & _ & _ & _ & C)
                   | (err & s4 & s5 & Hf & Hr & Ha & Hf2)]].
    + destruct (raw_effect _ _ _ Hi1 Hf) as (K & _). now apply K.
    + discriminate C.
    + destruct (raw_effect _ _ _ Hi1 Hf) as (_ & _ & K). specialize (K Hr).
      destruct (reauthorizeAccount_effects _ _ _ _ _ _ Ha) as (Ra & Fa & _).
      pose proof (I_same _ _ Ra Fa K) as Hi5.
      destruct (raw_effect _ _ _ Hi5 Hf2) as (K2 & _). now apply K2.
  - intros s1 err s2 Hi1. rewrite spec_attempt_result.
    destruct (withReauth fuel ctx r rawCall s1) as [[res s3] |] eqn:E; [| discriminate].
    destruct res as [e |]; intros Ex; inversion Ex; subst.
    split; [discriminate |].
    destruct (withReauth_cases _ _ _ _ _ _ _ E)
      as [[Hf _] | [(err & s4 & e2 & Hf & Hr & Ha & _)
                   | (err & s4 & s5 & Hf & Hr & Ha & Hf2)]].
    + destruct (raw_effect _ _ _ Hi1 Hf) as (_ & K & _). apply K. discriminate.
    + destruct (raw_effect _ _ _ Hi1 Hf) as (_ & _ & K). specialize (K Hr).
      destruct (reauthorizeAccount_effects _ _ _ _ _ _ Ha) as (Ra & Fa & _).
      exact (I_same _ _ Ra Fa K).
    + destruct (raw_effect _ _ _ Hi1 Hf) as (_ & _ & K). specialize (K Hr).
      destruct (reauthorizeAccount_effects _ _ _ _ _ _ Ha) as (Ra & Fa & _).
      pose proof (I_same _ _ Ra Fa K) as Hi5.
      destruct (raw_effect _ _ _ Hi5 Hf2) as (_ & K2 & _). apply K2. discriminate.
Qed.

End ResilientSuccess.

Lemma spec_create_success {L Handle} (fuel : nat) (ctx : GoContext) (r : ptr)
    (rawCall : M (option Handle) (option error))
    (I : state (option Handle) -> Prop) (G : Handle -> Prop) :
  (forall s s', (forall p, roots s' p = roots s p) -> frame s' = frame s -> I s -> I s') ->
  (forall s a s', I s -> rawCall s = Some (a, s') ->
     (a = None -> exists h, frame s' = Some h /\ G h)
     /\ (a <> None -> I s')
     /\ (b2_reauth (b2i (roots s' r)) a = true -> I s')) ->
  forall (s : state L) handle s',
    I (mkState (world s) (roots s) (log s) None) ->
    spec_create fuel ctx r rawCall s = Some ((handle, None), s') ->
    exists h, handle = Some h /\ G h.
Proof.
  intros Hsame Hraw s handle s' Hi. unfold spec_create, with_local. unfold bind at 1.
  destruct (spec_resilient fuel ctx r rawCall
              (mkState (world s) (roots s) (log s) None)) as [[e s1] |] eqn:E;
    [| discriminate].
  destruct e as [e |]; unfold_calls; intros E'; inversion E'; subst.
  exact (resilient_success fuel ctx r rawCall I
           (fun s1 => exists h, frame s1 = Some h /\ G h) Hsame Hraw _ _ Hi E).
Qed.

(** X5: when [createBucket], [getUploadURL] or [uploadFile] returns no error,
    it returns a handle, and that handle wraps a raw handle that a call of the
    raw operation, with the arguments of this call, returned without error:
    success never comes with a [nil] handle, nor with one made up by this
    layer. *)
Theorem success_returns_a_handle_of_the_raw_client :
  (forall L fuel r ctx name btype (s s' : state L) bi,
      createBucket fuel r ctx name btype s = Some ((bi, None), s') ->
      exists w bucket w',
        b2_createBucket (b2i (roots s r)) ctx name btype w = (inr bucket, w')
        /\ bi = Some {| b2bucket := bucket; bucket_ri := r |})
  /\ (forall L fuel (b : beBucket) ctx (s s' : state L) url,
      getUploadURL fuel b ctx s = Some ((url, None), s') ->
      exists w u w',
        b2_getUploadURL (b2bucket b) ctx w = (inr u, w')
        /\ url = Some {| b2url := u; url_ri := bucket_ri b |})
  /\ (forall L fuel (b : beURL) ctx rd size name_ ct sha1 info (s s' : state L) file,
      uploadFile fuel b ctx rd size name_ ct sha1 info s = Some ((file, None), s') ->
      exists w f_ w',
        b2_uploadFile (b2url b) ctx rd size name_ ct sha1 info w = (inr f_, w')
        /\ file = Some {| b2file := f_; file_url := b; file_ri := url_ri b |}).
Proof.
  split; [| split].
  - intros L fuel r ctx name_ btype s s' bi Hrun.
    set (I := fun s1 : state (option beBucket) => b2i (roots s1 r) = b2i (roots s r)).
    set (G := fun h : beBucket =>
                exists w bucket w',
                  b2_createBucket (b2i (roots s r)) ctx name_ btype w = (inr bucket, w')
                  /\ h = {| b2bucket := bucket; bucket_ri := r |}).
    assert (Hsame : forall s1 s2 : state (option beBucket),
               (forall p, roots s2 p = roots s1 p) -> frame s2 = frame s1 -> I s1 -> I s2).
    { unfold I. intros s1 s2 Hr _ Hi. now rewrite Hr. }
    assert (Hraw : forall s1 a s2, I s1 ->
               rawCall_createBucket r ctx name_ btype s1 = Some (a, s2) ->
               (a = None -> exists h, frame s2 = Some h /\ G h)
               /\ (a <> None -> I s2)
               /\ (b2_reauth (b2i (roots s2 r)) a = true -> I s2)).
    { unfold I, G. intros s1 a s2 Hi. unfold rawCall_createBucket. unfold_calls.
      rewrite Hi.
      destruct (b2_createBucket (b2i (roots s r)) ctx name_ btype (world s1))
        as [[e | bucket] w] eqn:Ew; intros E; inversion E; subst; cbn [roots frame].
      - split; [discriminate | split; intros _; exact Hi].
      - split; [| split; intros _; exact Hi].
        intros _. eexists. split; [reflexivity |]. now exists (world s1), bucket, w. }
    destruct (spec_create_success (L := L) fuel ctx r _ I G Hsame Hraw s bi s'
                eq_refl Hrun) as (h & Eh & w & bucket & w' & Ew & Ehw).
    exists w, bucket, w'. split; [exact Ew | now rewrite Eh, Ehw].
  - intros L fuel b ctx s s' url Hrun.
    set (G := fun h : beURL =>
                exists w u w',
                  b2_getUploadURL (b2bucket b) ctx w = (inr u, w')
                  /\ h = {| b2url := u; url_ri := bucket_ri b |}).
    assert (Hraw : forall (s1 : state (option beURL)) a s2, True ->
               rawCall_getUploadURL b ctx s1 = Some (a, s2) ->
               (a = None -> exists h, frame s2 = Some h /\ G h)
               /\ (a <> None -> True)
               /\ (b2_reauth (b2i (roots s2 (bucket_ri b))) a = true -> True)).
    { unfold G. intros s1 a s2 _. unfold rawCall_getUploadURL. unfold_calls.
      destruct (b2_getUploadURL (b2bucket b) ctx (world s1))
        as [[e | u] w] eqn:Ew; intros E; inversion E; subst; cbn [roots frame].
      - split; [discriminate | split; trivial].
      - split; [| split; trivial].
        intros _. eexists. split; [reflexivity |]. now exists (world s1), u, w. }
    destruct (spec_create_success (L := L) fuel ctx (bucket_ri b) _ (fun _ => True) G
                (fun _ _ _ _ _ => Logic.I) Hraw s url s' Logic.I Hrun)
      as (h & Eh & w & u & w' & Ew & Ehw).
    exists w, u, w'. split; [exact Ew | now rewrite Eh, Ehw].
  - intros L fuel b ctx rd size name_ ct sha1 info s s' file Hrun.
    set (G := fun h : beFile =>
                exists w f_ w',
                  b2_uploadFile (b2url b) ctx rd size name_ ct sha1 info w = (inr f_, w')
                  /\ h = {| b2file := f_; file_url := b; file_ri := url_ri b |}).
    assert (Hraw : forall (s1 : state (option beFile)) a s2, True ->
               rawCall_uploadFile b ctx rd size name_ ct sha1 info s1 = Some (a, s2) ->
               (a = None -> exists h, frame s2 = Some h /\ G h)
               /\ (a <> None -> True)
               /\ (b2_reauth (b2i (roots s2 (url_ri b))) a = true -> True)).
    { unfold G. intros s1 a s2 _. unfold rawCall_uploadFile. unfold_calls.
      destruct (b2_uploadFile (b2url b) ctx rd size name_ ct sha1 info (world s1))
        as [[e | f_] w] eqn:Ew; intros E; inversion E; subst; cbn [roots frame].
      - split; [discriminate | split; trivial].
      - split; [| split; trivial].
        intros _. eexists. split; [reflexivity |]. now exists (world s1), f_, w. }
    destruct (spec_create_success (L := L) fuel ctx (url_ri b) _ (fun _ => True) G
                (fun _ _ _ _ _ => Logic.I) Hraw s file s' Logic.I Hrun)
      as (h & Eh & w & f_ & w' & Ew & Ehw).
    exists w, f_, w'. split; [exact Ew | now rewrite Eh, Ehw].
Qed.

(** X6: with a classifier that does not ask for a reauthorization on [nil],
    [listBuckets] returns, when it returns no error, the buckets of one call
    of the raw [listBuckets], each wrapped once and in the order the raw
    client gave them: the attempts that failed before, and the
    reauthorizations, have added nothing to the list. *)
Theorem listBuckets_returns_one_raw_listing {L} (fuel : nat) (r : ptr)
    (ctx : GoContext) (s s' : state L) (buckets : list beBucket) :
  b2_reauth (b2i (roots s r)) None = false ->
  listBuckets fuel r ctx s = Some ((buckets, None), s') ->
  exists w bs w',
    b2_listBuckets (b2i (roots s r)) ctx w = (inr bs, w')
    /\ buckets = map (fun b => {| b2bucket := b; bucket_ri := r |}) bs.
Proof.
  intros Hnil.
  change (listBuckets fuel r ctx s)
    with (spec_list fuel ctx r (rawCall_listBuckets r ctx) s).
  unfold spec_list, with_local. unfold bind at 1.
  destruct (spec_resilient fuel ctx r (rawCall_listBuckets r ctx)
              (mkState (world s) (roots s) (log s) [])) as [[e s1] |] eqn:E;
    [| discriminate].
  destruct e as [e |]; unfold_calls; intros E'; inversion E'; subst.
  refine (resilient_success fuel ctx r (rawCall_listBuckets r ctx)
            (fun s1 => b2i (roots s1 r) = b2i (roots s r) /\ frame s1 = [])
            (fun s1 => exists w bs w',
                 b2_listBuckets (b2i (roots s r)) ctx w = (inr bs, w')
                 /\ frame s1 = map (fun b => {| b2bucket := b; bucket_ri := r |}) bs)
            _ _ (mkState (world s) (roots s) (log s) []) s1
            (conj eq_refl eq_refl) E).
  - intros s2 s3 Hr Hf [Hi Hfr]. split; [now rewrite Hr | now rewrite Hf].
  - intros s2 a s3 [Hi Hfr]. unfold rawCall_listBuckets. unfold_calls.
    rewrite Hi, Hfr.
    destruct (b2_listBuckets (b2i (roots s r)) ctx (world s2))
      as [[e | bs] w] eqn:Ew; intros E2; inversion E2; subst; cbn [roots frame].
    + split; [discriminate | split; intros _; (split; [exact Hi | reflexivity])].
    + split; [| split].
      * intros _. now exists (world s2), bs, w.
      * intros C. now contradiction C.
      * rewrite Hi, Hnil. discriminate.
Qed.

(** ** Where the errors come from *)

Lemma authorizeAccount_errors {L} (fuel : nat) (r : ptr) (ctx : GoContext)
    (a k : string) (s s' : state L) (e : error) :
  authorizeAccount fuel r ctx a k s = Some (Some e, s') ->
  (exists w w', b2_authorizeAccount (b2i (roots s r)) ctx a k w = (Some e, w'))
  \/ (exists w, e = ctx_Err ctx w).
Proof.
  unfold authorizeAccount, withBackoff. intros Hrun.
  refine (withBackoff_loop_result ctx r _
            (fun s1 => roots s1 = roots s)
            (fun err s1 =>
               forall e, err = Some e ->
                 (exists w w', b2_authorizeAccount (b2i (roots s r)) ctx a k w
                               = (Some e, w'))
                 \/ (exists w, e = ctx_Err ctx w))
            _ _ _ _ fuel _ s (Some e) s' eq_refl Hrun e eq_refl).
  - intros s1 w l E. exact E.
  - intros s1 w l w' _ e0 E0. inversion E0. right. now exists w'.
  - intros s1 err s2 E. unfold_calls.
    destruct (b2_authorizeAccount (b2i (roots s1 r)) ctx a k (world s1)) as [[e1 |] w];
      intros Ef; inversion Ef; subst. discriminate.
  - intros s1 err s2 E. unfold_calls.
    destruct (b2_authorizeAccount (b2i (roots s1 r)) ctx a k (world s1))
      as [[e1 |] w] eqn:Ew; intros Ef; inversion Ef; subst. cbn [roots].
    split; [| exact E]. intros e0 E0. inversion E0; subst. left.
    rewrite E in Ew. now exists (world s1), w.
Qed.

Lemma reauthorizeAccount_errors {L} (fuel : nat) (r : ptr) (ctx : GoContext)
    (s s' : state L) (e : error) :
  reauthorizeAccount fuel r ctx s = Some (Some e, s') ->
  (exists w w', b2_authorizeAccount (b2i (roots s r)) ctx
                  (account (roots s r)) (key (roots s r)) w = (Some e, w'))
  \/ (exists w, e = ctx_Err ctx w).
Proof. unfold reauthorizeAccount. unfold_calls. apply authorizeAccount_errors. Qed.

Section ResilientErrors.

Context {L : Type} (fuel : nat) (ctx : GoContext) (r : ptr)
        (rawCall : M L (option error)) (P : error -> Prop) (s : state L).

(** The raw call does not write the sessions, and its errors are in [P], when
    the sessions are those of [s]. *)
Hypothesis raw_errors : forall s1 a s1',
  (forall p, roots s1 p = roots s p) ->
  rawCall s1 = Some (a, s1') ->
  roots s1' = roots s1 /\ (forall e, a = Some e -> P e).

Lemma resilient_errors (s' : state L) (e : error) :
  spec_resilient fuel ctx r rawCall s = Some (Some e, s') ->
  P e
  \/ (exists w w', b2_authorizeAccount (b2i (roots s r)) ctx
                     (account (roots s r)) (key (roots s r)) w = (Some e, w'))
  \/ (exists w, e = ctx_Err ctx w).
Proof.
  intros Hrun. unfold spec_resilient, withBackoff in Hrun.
  set (A := fun e : error =>
              exists w w', b2_authorizeAccount (b2i (roots s r)) ctx
                             (account (roots s r)) (key (roots s r)) w = (Some e, w')).
  set (C := fun e : error => exists w, e = ctx_Err ctx w).
  refine (withBackoff_loop_result ctx r _
            (fun s1 => forall p, roots s1 p = roots s p)
            (fun err s1 => forall e, err = Some e -> P e \/ A e \/ C e)
            _ _ _ _ fuel _ s (Some e) s' (fun p => eq_refl) Hrun e eq_refl).
  - intros s1 w l E. exact E.
  - intros s1 w l w' _ e0 E0. inversion E0. right; right. now exists w'.
  - intros s1 err s2 _. rewrite spec_attempt_result.
    destruct (withReauth fuel ctx r rawCall s1) as [[[e1 |] s3] |];
      intros Ex; inversion Ex; subst. discriminate.
  - intros s1 err s2 Hi. rewrite spec_attempt_result.
    destruct (withReauth fuel ctx r rawCall s1) as [[[e1 |] s3] |] eqn:E;
      intros Ex; inversion Ex; subst.
    assert (Auth : forall (s4 s5 : state L) e2,
               (forall p, roots s4 p = roots s p) ->
               reauthorizeAccount fuel r ctx s4 = Some (Some e2, s5) -> A e2 \/ C e2).
    { intros s4 s5 e2 Hi4 Ha. apply reauthorizeAccount_errors in Ha.
      rewrite (Hi4 r) in Ha. exact Ha. }
    destruct (withReauth_cases _ _ _ _ _ _ _ E)
      as [[Hf _] | [(err & s4 & e2 & Hf & _ & Ha & Ee)
                   | (err & s4 & s5 & Hf & _ & Ha & Hf2)]].
    + destruct (raw_errors _ _ _ Hi Hf) as [Er Pe]. split.
      * intros e0 E0. inversion E0; subst. left. now apply Pe.
      * intros p. now rewrite Er.
    + destruct (raw_errors _ _ _ Hi Hf) as [Er _].
      assert (Hi4 : forall p, roots s4 p = roots s p) by (intros p; now rewrite Er).
      destruct (reauthorizeAccount_effects _ _ _ _ _ _ Ha) as (Ra & _ & _).
      inversion Ee; subst. split.
      * intros e0 E0. inversion E0; subst. right. exact (Auth _ _ _ Hi4 Ha).
      * intros p. now rewrite Ra.
    + destruct (raw_errors _ _ _ Hi Hf) as [Er _].
      destruct (reauthorizeAccount_effects _ _ _ _ _ _ Ha) as (Ra & _ & _).
      assert (Hi5 : forall p, roots s5 p = roots s p)
        by (intros p; rewrite Ra; now rewrite Er).
      destruct (raw_errors _ _ _ Hi5 Hf2) as [Er2 Pe]. split.
      * intros e0 E0. inversion E0; subst. left. now apply Pe.
      * intros p. now rewrite Er2.
Qed.

End ResilientErrors.

Ltac inner_error E :=
  unfold spec_create, spec_list, with_local; unfold bind at 1;
  match goal with
  | |- context [spec_resilient ?fuel ?ctx ?r ?g ?st] =>
      let inner := fresh "inner" in
      let e0 := fresh "err" in
      let E' := fresh "E'" in
      destruct (spec_resilient fuel ctx r g st) as [[[e0 |] inner] |] eqn:E;
      unfold_calls; intros E'; inversion E'; subst
  end.

(** X7: this layer makes up no error and wraps none.  An error returned by an
    operation is the very error that a call of its raw operation returned, or
    that a call of the raw [authorizeAccount] with the credentials of the
    session returned (during a reauthorization), or the error of the context.
    For [authorizeAccount] it is an error of the raw [authorizeAccount] with
    the arguments given, or the error of the context. *)
Theorem errors_come_from_below :
  (forall L fuel r ctx a k (s s' : state L) e,
      authorizeAccount fuel r ctx a k s = Some (Some e, s') ->
      (exists w w', b2_authorizeAccount (b2i (roots s r)) ctx a k w = (Some e, w'))
      \/ (exists w, e = ctx_Err ctx w))
  /\ (forall L fuel r ctx name btype (s s' : state L) bi e,
      createBucket fuel r ctx name btype s = Some ((bi, Some e), s') ->
      (exists w w', b2_createBucket (b2i (roots s r)) ctx name btype w = (inl e, w'))
      \/ (exists w w', b2_authorizeAccount (b2i (roots s r)) ctx
                         (account (roots s r)) (key (roots s r)) w = (Some e, w'))
      \/ (exists w, e = ctx_Err ctx w))
  /\ (forall L fuel r ctx (s s' : state L) buckets e,
      listBuckets fuel r ctx s = Some ((buckets, Some e), s') ->
      (exists w w', b2_listBuckets (b2i (roots s r)) ctx w = (inl e, w'))
      \/ (exists w w', b2_authorizeAccount (b2i (roots s r)) ctx
                         (account (roots s r)) (key (roots s r)) w = (Some e, w'))
      \/ (exists w, e = ctx_Err ctx w))
  /\ (forall L fuel (b : beBucket) ctx (s s' : state L) e,
      deleteBucket fuel b ctx s = Some (Some e, s') ->
      (exists w w', b2_deleteBucket (b2bucket b) ctx w = (Some e, w'))
      \/ (exists w w', b2_authorizeAccount (b2i (roots s (bucket_ri b))) ctx
                         (account (roots s (bucket_ri b)))
                         (key (roots s (bucket_ri b))) w = (Some e, w'))
      \/ (exists w, e = ctx_Err ctx w))
  /\ (forall L fuel (b : beBucket) ctx (s s' : state L) url e,
      getUploadURL fuel b ctx s = Some ((url, Some e), s') ->
      (exists w w', b2_getUploadURL (b2bucket b) ctx w = (inl e, w'))
      \/ (exists w w', b2_authorizeAccount (b2i (roots s (bucket_ri b))) ctx
                         (account (roots s (bucket_ri b)))
                         (key (roots s (bucket_ri b))) w = (Some e, w'))
      \/ (exists w, e = ctx_Err ctx w))
  /\ (forall L fuel (b : beURL) ctx rd size name_ ct sha1 info (s s' : state L) file e,
      uploadFile fuel b ctx rd size name_ ct sha1 info s = Some ((file, Some e), s') ->
      (exists w w', b2_uploadFile (b2url b) ctx rd size name_ ct sha1 info w
                    = (inl e, w'))
      \/ (exists w w', b2_authorizeAccount (b2i (roots s (url_ri b))) ctx
                         (account (roots s (url_ri b)))
                         (key (roots s (url_ri b))) w = (Some e, w'))
      \/ (exists w, e = ctx_Err ctx w))
  /\ (forall L fuel (b : beFile) ctx (s s' : state L) e,
      deleteFileVersion fuel b ctx s = Some (Some e, s') ->
      (exists w w', b2_deleteFileVersion (b2file b) ctx w = (Some e, w'))
      \/ (exists w w', b2_authorizeAccount (b2i (roots s (file_ri b))) ctx
                         (account (roots s (file_ri b)))
                         (key (roots s (file_ri b))) w = (Some e, w'))
      \/ (exists w, e = ctx_Err ctx w)).
Proof.
  split; [| split; [| split; [| split; [| split; [| split]]]]].
  - intros L fuel r ctx a k s s' e. apply authorizeAccount_errors.
  - intros L fuel r ctx name_ btype s s' bi e.
    change (createBucket fuel r ctx name_ btype s)
      with (spec_create fuel ctx r (rawCall_createBucket r ctx name_ btype) s).
    inner_error E.
    apply (resilient_errors fuel ctx r (rawCall_createBucket r ctx name_ btype)
             (fun e => exists w w',
                  b2_createBucket (b2i (roots s r)) ctx name_ btype w = (inl e, w')))
      in E; [exact E |].
    intros s1 a s1' Hi. unfold rawCall_createBucket. unfold_calls. rewrite (Hi r).
    destruct (b2_createBucket (b2i (roots s r)) ctx name_ btype (world s1))
      as [[e1 | bucket] w] eqn:Ew; intros Ef; inversion Ef; subst; cbn [roots];
      (split; [reflexivity |]); intros e0 E0; inversion E0; subst.
    now exists (world s1), w.
  - intros L fuel r ctx s s' buckets e.
    change (listBuckets fuel r ctx s)
      with (spec_list fuel ctx r (rawCall_listBuckets r ctx) s).
    inner_error E.
    apply (resilient_errors fuel ctx r (rawCall_listBuckets r ctx)
             (fun e => exists w w',
                  b2_listBuckets (b2i (roots s r)) ctx w = (inl e, w')))
      in E; [exact E |].
    intros s1 a s1' Hi. unfold rawCall_listBuckets. unfold_calls. rewrite (Hi r).
    destruct (b2_listBuckets (b2i (roots s r)) ctx (world s1))
      as [[e1 | bs] w] eqn:Ew; intros Ef; inversion Ef; subst; cbn [roots];
      (split; [reflexivity |]); intros e0 E0; inversion E0; subst.
    now exists (world s1), w.
  - intros L fuel b ctx s s' e Hrun.
    apply (resilient_errors fuel ctx (bucket_ri b)
             (raw RawDeleteBucket (b2_deleteBucket (b2bucket b) ctx))
             (fun e => exists w w', b2_deleteBucket (b2bucket b) ctx w = (Some e, w')))
      in Hrun; [exact Hrun |].
    intros s1 a s1' _. unfold_calls.
    destruct (b2_deleteBucket (b2bucket b) ctx (world s1)) as [e1 w] eqn:Ew.
    intros Ef; inversion Ef; subst. cbn [roots]. split; [reflexivity |].
    intros e0 E0. subst. now exists (world s1), w.
  - intros L fuel b ctx s s' url e.
    change (getUploadURL fuel b ctx s)
      with (spec_create fuel ctx (bucket_ri b) (rawCall_getUploadURL b ctx) s).
    inner_error E.
    apply (resilient_errors fuel ctx (bucket_ri b) (rawCall_getUploadURL b ctx)
             (fun e => exists w w', b2_getUploadURL (b2bucket b) ctx w = (inl e, w')))
      in E; [exact E |].
    intros s1 a s1' _. unfold rawCall_getUploadURL. unfold_calls.
    destruct (b2_getUploadURL (b2bucket b) ctx (world s1))
      as [[e1 | u] w] eqn:Ew; intros Ef; inversion Ef; subst; cbn [roots];
      (split; [reflexivity |]); intros e0 E0; inversion E0; subst.
    now exists (world s1), w.
  - intros L fuel b ctx rd size name_ ct sha1 info s s' file e.
    change (uploadFile fuel b ctx rd size name_ ct sha1 info s)
      with (spec_create fuel ctx (url_ri b)
              (rawCall_uploadFile b ctx rd size name_ ct sha1 info) s).
    inner_error E.
    apply (resilient_errors fuel ctx (url_ri b)
             (rawCall_uploadFile b ctx rd size name_ ct sha1 info)
             (fun e => exists w w',
                  b2_uploadFile (b2url b) ctx rd size name_ ct sha1 info w
                  = (inl e, w')))
      in E; [exact E |].
    intros s1 a s1' _. unfold rawCall_uploadFile. unfold_calls.
    destruct (b2_uploadFile (b2url b) ctx rd size name_ ct sha1 info (world s1))
      as [[e1 | f_] w] eqn:Ew; intros Ef; inversion Ef; subst; cbn [roots];
      (split; [reflexivity |]); intros e0 E0; inversion E0; subst.
    now exists (world s1), w.
  - intros L fuel b ctx s s' e Hrun.
    apply (resilient_errors fuel ctx (file_ri b)
             (raw RawDeleteFileVersion (b2_deleteFileVersion (b2file b) ctx))
             (fun e => exists w w',
                  b2_deleteFileVersion (b2file b) ctx w = (Some e, w')))
      in Hrun; [exact Hrun |].
    intros s1 a s1' _. unfold_calls.
    destruct (b2_deleteFileVersion (b2file b) ctx (world s1)) as [e1 w] eqn:Ew.
    intros Ef; inversion Ef; subst. cbn [roots]. split; [reflexivity |].
    intros e0 E0. subst. now exists (world s1), w.
Qed.

(** ** The override of the backoff *)

(** X8: when the classifier gives an override of the backoff for the error of
    an attempt, [withBackoff] waits for exactly that duration, draws no random
    number, and takes the override as its running backoff, whatever the
    running backoff was.  With a classifier that gives an override for every
    error (and that the attempts leave in place), the run therefore depends
    neither on the random source nor on the 500ms the loop starts from. *)
Theorem override_replaces_the_backoff {L} (ctx : GoContext) (ri : ptr)
    (f : M L (bool * option error)) :
  (forall n b (s s1 : state L) e bo w3,
      f s = Some ((false, e), s1) ->
      b2_transient (b2i (roots s1 ri)) e = true ->
      b2_backoff (b2i (roots s1 ri)) e = (bo, true) ->
      select_Done ctx bo (world s1) = (false, w3) ->
      withBackoff_loop (S n) ctx ri f b s
      = withBackoff_loop n ctx ri f bo
          (mkState w3 (roots s1) (log s1 ++ [Waited bo]) (frame s1)))
  /\ (forall (other : Runtime World) (classifier : b2RootInterface World),
      (forall e, snd (b2_backoff classifier e) = true) ->
      (forall s x s', b2i (roots s ri) = classifier -> f s = Some (x, s') ->
         b2i (roots s' ri) = classifier) ->
      forall fuel b b' s,
        b2i (roots s ri) = classifier ->
        withBackoff_loop (H := H) fuel ctx ri f b s
        = withBackoff_loop (H := other) fuel ctx ri f b' s).
Proof.
  split.
  - intros n b s s1 e bo w3 Hf Ht Hb Hsel. simpl. unfold_calls.
    rewrite Hf. cbn [roots]. rewrite Ht. cbn [negb]. rewrite Hb. rewrite Hsel.
    reflexivity.
  - intros other classifier Hov Hkeep.
    induction fuel as [| fuel IH]; intros b b' s Hc; [reflexivity |].
    simpl. unfold_calls.
    destruct (f s) as [[[final e] s1] |] eqn:Ef; [| reflexivity].
    destruct final; [reflexivity |].
    pose proof (Hkeep _ _ _ Hc Ef) as Hc1. unfold_calls. rewrite Hc1.
    destruct (b2_transient classifier e); [| reflexivity]. cbn [negb]. unfold_calls.
    rewrite Hc1. pose proof (Hov e) as Ho.
    destruct (b2_backoff classifier e) as [bo ok]. simpl in Ho. subst ok.
    unfold_calls.
    destruct (select_Done ctx bo (world s1)) as [[|] w3]; [reflexivity |].
    apply IH. exact Hc1.
Qed.

(** ** The growth of the backoff *)



End Further.

(** * The further properties at concrete inputs *)

Section FurtherInstances.

Import Scenario.

Local Open Scope string_scope.

Lemma authorizeAccount_stores_on_success_only_witness :
  match authorizeAccount (H := draw_half) 5 0%nat ctx "acct2" "key2"
          (start false [] [Some "503"; None] []) with
  | Some (None, s') =>
      roots s' 0%nat = {| account := "acct2"; key := "key2"; b2i := raw_root false |}
      /\ roots s' 1%nat = session false 1%nat
  | _ => False
  end
  /\ match authorizeAccount (H := draw_half) 5 0%nat ctx "acct2" "key2"
             (start false [] [Some "403"] []) with
     | Some (Some e, s') => e = "403" /\ roots s' = session false
     | _ => False
     end.
Proof.
  split.
  - assert (V : option_map fst
                  (authorizeAccount (H := draw_half) 5 0%nat ctx "acct2" "key2"
                     (start false [] [Some "503"; None] []))
                = Some None) by (vm_compute; reflexivity).
    destruct (authorizeAccount (H := draw_half) 5 0%nat ctx "acct2" "key2"
                (start false [] [Some "503"; None] []))
      as [[[e |] s'] |] eqn:E; try discriminate V.
    destruct (authorizeAccount_stores_on_success_only (H := draw_half)
                _ _ _ _ _ _ _ _ E) as (Hok & _ & Hother & _).
    split; [exact (Hok eq_refl) |]. apply Hother. discriminate.
  - assert (V : option_map fst
                  (authorizeAccount (H := draw_half) 5 0%nat ctx "acct2" "key2"
                     (start false [] [Some "403"] []))
                = Some (Some "403")) by (vm_compute; reflexivity).
    destruct (authorizeAccount (H := draw_half) 5 0%nat ctx "acct2" "key2"
                (start false [] [Some "403"] []))
      as [[[e |] s'] |] eqn:E; try discriminate V.
    cbn [option_map fst] in V. injection V as Ee.
    destruct (authorizeAccount_stores_on_success_only (H := draw_half)
                _ _ _ _ _ _ _ _ E) as (_ & Hfail & _).
    split; [exact Ee |]. apply Hfail. discriminate.
Defined.

Lemma reauthorizeAccount_replays_stored_credentials_witness :
  match reauthorizeAccount (H := draw_half) 5 0%nat ctx
          (start false [] [Some "503"; None] []) with
  | Some (None, s') =>
      roots s' 0%nat = session false 0%nat
      /\ Forall (fun ev => ev = RawAuthorizeAccount "acct" "secret"
                           \/ exists d, ev = Waited d) (log s')
      /\ List.length (log s') = 3%nat
  | _ => False
  end.
Proof.
  assert (V : option_map (fun p => (fst p, List.length (log (snd p))))
                (reauthorizeAccount (H := draw_half) 5 0%nat ctx
                   (start false [] [Some "503"; None] []))
              = Some (None, 3%nat)) by (vm_compute; reflexivity).
  destruct (reauthorizeAccount (H := draw_half) 5 0%nat ctx
              (start false [] [Some "503"; None] []))
    as [[[e |] s'] |] eqn:E; try discriminate V.
  cbn [option_map fst snd] in V. injection V as Elen.
  destruct (reauthorizeAccount_replays_stored_credentials (H := draw_half)
              _ _ _ _ _ _ E) as (Hr & _ & l & El & Fl).
  split; [exact (Hr 0%nat) |]. split; [| exact Elen].
  cbn [log start app] in El. rewrite El. exact Fl.
Defined.

Ltac run_returns run :=
  let V := fresh "V" in
  assert (V : option_map (fun _ => tt) run = Some tt) by (vm_compute; reflexivity);
  destruct run as [[? ?] |] eqn:?; [| discriminate V]; clear V.

Lemma handle_operations_leave_the_sessions_witness :
  let s0 := start false [Some "503"; Some "401"; None] [Some "503"; None] [] in
  match createBucket (H := draw_half) 5 0%nat ctx "b" "allPrivate" s0 with
  | Some (_, s') => forall p, roots s' p = session false p
  | None => False
  end
  /\ match listBuckets (H := draw_half) 5 0%nat ctx s0 with
     | Some (_, s') => forall p, roots s' p = session false p
     | None => False
     end
  /\ match deleteBucket (H := draw_half) 5 bucket_handle ctx s0 with
     | Some (_, s') =>
         (forall p, roots s' p = session false p)
         /\ Forall (fun e => e = RawDeleteBucket
                             \/ e = RawAuthorizeAccount "acct" "secret"
                             \/ exists d, e = Waited d) (log s')
         /\ List.length (log s') = 7%nat
     | None => False
     end
  /\ match getUploadURL (H := draw_half) 5 bucket_handle ctx s0 with
     | Some (_, s') => forall p, roots s' p = session false p
     | None => False
     end
  /\ match uploadFile (H := draw_half) 5 url_handle ctx 0%nat 3 "f" "text/plain"
             "sha1" [] s0 with
     | Some (_, s') => forall p, roots s' p = session false p
     | None => False
     end
  /\ match deleteFileVersion (H := draw_half) 5 file_handle ctx s0 with
     | Some (_, s') => forall p, roots s' p = session false p
     | None => False
     end.
Proof.
  intros s0.
  destruct (handle_operations_leave_the_sessions (H := draw_half))
    as (A & B & C & D & E & F).
  split; [| split; [| split; [| split; [| split]]]].
  - run_returns (createBucket (H := draw_half) 5 0%nat ctx "b" "allPrivate" s0).
    exact (proj1 (A _ _ _ _ _ _ _ _ _ Heqo)).
  - run_returns (listBuckets (H := draw_half) 5 0%nat ctx s0).
    exact (proj1 (B _ _ _ _ _ _ _ Heqo)).
  - assert (V : option_map (fun p => List.length (log (snd p)))
                  (deleteBucket (H := draw_half) 5 bucket_handle ctx s0)
                = Some 7%nat) by (vm_compute; reflexivity).
    destruct (deleteBucket (H := draw_half) 5 bucket_handle ctx s0)
      as [[res s'] |] eqn:Erun; [| discriminate V].
    cbn [option_map snd] in V. injection V as Elen.
    destruct (C _ _ _ _ _ _ _ Erun) as (Hr & l & El & Fl).
    split; [exact Hr |]. split; [| exact Elen].
    cbn [log start app] in El. rewrite El. exact Fl.
  - run_returns (getUploadURL (H := draw_half) 5 bucket_handle ctx s0).
    exact (proj1 (D _ _ _ _ _ _ _ Heqo)).
  - run_returns (uploadFile (H := draw_half) 5 url_handle ctx 0%nat 3 "f" "text/plain"
                   "sha1" [] s0).
    exact (proj1 (E _ _ _ _ _ _ _ _ _ _ _ _ _ Heqo)).
  - run_returns (deleteFileVersion (H := draw_half) 5 file_handle ctx s0).
    exact (proj1 (F _ _ _ _ _ _ _ Heqo)).
Defined.

Lemma success_returned_at_once_witness :
  let s0 := start false [] [] [true] in
  b2_reauth (raw_root false) None = false
  /\ fst (next_op (world s0)) = None
  /\ fst (next_auth (world s0)) = None
  /\ option_map (fun p => (fst p, account (roots (snd p) 0%nat), log (snd p)))
       (authorizeAccount (H := draw_half) 1 0%nat ctx "acct2" "key2" s0)
     = Some (None, "acct2", [RawAuthorizeAccount "acct2" "key2"])
  /\ observed_handle (createBucket (H := draw_half) 1 0%nat ctx "b" "allPrivate" s0)
     = Some (true, None, [RawCreateBucket "b" "allPrivate"])
  /\ observed_handles (listBuckets (H := draw_half) 1 0%nat ctx s0)
     = Some (2%nat, None, [RawListBuckets])
  /\ observed (deleteBucket (H := draw_half) 1 bucket_handle ctx s0)
     = Some (None, [RawDeleteBucket])
  /\ observed_handle (getUploadURL (H := draw_half) 1 bucket_handle ctx s0)
     = Some (true, None, [RawGetUploadURL])
  /\ observed_handle (uploadFile (H := draw_half) 1 url_handle ctx 0%nat 3 "f"
                        "text/plain" "sha1" [] s0)
     = Some (true, None, [RawUploadFile "f"])
  /\ observed (deleteFileVersion (H := draw_half) 1 file_handle ctx s0)
     = Some (None, [RawDeleteFileVersion]).
Proof.
  intros s0.
  destruct (success_returned_at_once (H := draw_half)) as (A & B & C & D & E & F & G).
  split; [reflexivity |]. split; [reflexivity |]. split; [reflexivity |].
  split; [rewrite (A unit 0%nat 0%nat ctx "acct2" "key2" s0 _ eq_refl); reflexivity |].
  split; [rewrite (B unit 0%nat 0%nat ctx "b" "allPrivate" s0 _ _ eq_refl eq_refl);
          reflexivity |].
  split; [rewrite (C unit 0%nat 0%nat ctx s0 _ _ eq_refl eq_refl); reflexivity |].
  split; [rewrite (D unit 0%nat bucket_handle ctx s0 _ eq_refl eq_refl);
          reflexivity |].
  split; [rewrite (E unit 0%nat bucket_handle ctx s0 _ _ eq_refl eq_refl);
          reflexivity |].
  split; [rewrite (F unit 0%nat url_handle ctx 0%nat 3 "f" "text/plain" "sha1" [] s0
                     _ _ eq_refl eq_refl); reflexivity |].
  rewrite (G unit 0%nat file_handle ctx s0 _ eq_refl eq_refl). reflexivity.
Defined.

Lemma success_returns_a_handle_of_the_raw_client_witness :
  let s0 := start false [Some "503"; Some "401"; None] [] [] in
  match createBucket (H := draw_half) 5 0%nat ctx "b" "allPrivate" s0 with
  | Some ((bi, None), _) =>
      exists bucket, bi = Some {| b2bucket := bucket; bucket_ri := 0%nat |}
  | _ => False
  end
  /\ match getUploadURL (H := draw_half) 5 bucket_handle ctx s0 with
     | Some ((url, None), _) =>
         exists u, url = Some {| b2url := u; url_ri := 0%nat |}
     | _ => False
     end
  /\ match uploadFile (H := draw_half) 5 url_handle ctx 0%nat 3 "f" "text/plain"
             "sha1" [] s0 with
     | Some ((file, None), _) =>
         exists f_, file = Some {| b2file := f_; file_url := url_handle;
                                   file_ri := 0%nat |}
     | _ => False
     end.
Proof.
  intros s0.
  destruct (success_returns_a_handle_of_the_raw_client (H := draw_half))
    as (A & B & C).
  split; [| split].
  - assert (V : option_map (fun p => snd (fst p))
                  (createBucket (H := draw_half) 5 0%nat ctx "b" "allPrivate" s0)
                = Some None) by (vm_compute; reflexivity).
    destruct (createBucket (H := draw_half) 5 0%nat ctx "b" "allPrivate" s0)
      as [[[bi [e |]] s'] |] eqn:Erun; try discriminate V.
    destruct (A _ _ _ _ _ _ _ _ _ Erun) as (w & bucket & w' & _ & Eb).
    exists bucket. exact Eb.
  - assert (V : option_map (fun p => snd (fst p))
                  (getUploadURL (H := draw_half) 5 bucket_handle ctx s0)
                = Some None) by (vm_compute; reflexivity).
    destruct (getUploadURL (H := draw_half) 5 bucket_handle ctx s0)
      as [[[url [e |]] s'] |] eqn:Erun; try discriminate V.
    destruct (B _ _ _ _ _ _ _ Erun) as (w & u & w' & _ & Eu).
    exists u. exact Eu.
  - assert (V : option_map (fun p => snd (fst p))
                  (uploadFile (H := draw_half) 5 url_handle ctx 0%nat 3 "f"
                     "text/plain" "sha1" [] s0)
                = Some None) by (vm_compute; reflexivity).
    destruct (uploadFile (H := draw_half) 5 url_handle ctx 0%nat 3 "f"
                "text/plain" "sha1" [] s0)
      as [[[file [e |]] s'] |] eqn:Erun; try discriminate V.
    destruct (C _ _ _ _ _ _ _ _ _ _ _ _ _ Erun) as (w & f_ & w' & _ & Ef).
    exists f_. exact Ef.
Defined.

Lemma listBuckets_returns_one_raw_listing_witness :
  let s0 := start false [Some "503"; Some "401"; None] [] [] in
  b2_reauth (b2i (roots s0 0%nat)) None = false
  /\ match listBuckets (H := draw_half) 5 0%nat ctx s0 with
     | Some ((buckets, None), _) =>
         map name buckets = ["a"; "b"]
         /\ exists bs,
              buckets = map (fun b => {| b2bucket := b; bucket_ri := 0%nat |}) bs
     | _ => False
     end.
Proof.
  intros s0. split; [reflexivity |].
  assert (V : option_map (fun p => (snd (fst p), map name (fst (fst p))))
                (listBuckets (H := draw_half) 5 0%nat ctx s0)
              = Some (None, ["a"; "b"])) by (vm_compute; reflexivity).
  destruct (listBuckets (H := draw_half) 5 0%nat ctx s0)
    as [[[buckets [e |]] s'] |] eqn:Erun; try discriminate V.
  cbn [option_map fst snd] in V. injection V as Enames.
  split; [exact Enames |].
  destruct (listBuckets_returns_one_raw_listing (H := draw_half)
              5 0%nat ctx s0 s' buckets eq_refl Erun) as (w & bs & w' & _ & Eb).
  exists bs. exact Eb.
Defined.

Lemma errors_come_from_below_witness :
  let s0 := start false [Some "500"] [Some "500"] [] in
  match authorizeAccount (H := draw_half) 5 0%nat ctx "a" "k" s0 with
     | Some (Some e, _) =>
         e = "500"
         /\ ((exists w w', b2_authorizeAccount (raw_root false) ctx "a" "k" w = (Some e, w'))
           \/ (exists w, e = ctx_Err ctx w))
     | _ => False
     end
  /\ match createBucket (H := draw_half) 5 0%nat ctx "b" "allPrivate" s0 with
     | Some ((_, Some e), _) =>
         e = "500"
         /\ ((exists w w', b2_createBucket (raw_root false) ctx "b" "allPrivate" w = (inl e, w'))
           \/ (exists w w', b2_authorizeAccount (raw_root false) ctx "acct" "secret" w
                            = (Some e, w'))
           \/ (exists w, e = ctx_Err ctx w))
     | _ => False
     end
  /\ match listBuckets (H := draw_half) 5 0%nat ctx s0 with
     | Some ((_, Some e), _) =>
         e = "500"
         /\ ((exists w w', b2_listBuckets (raw_root false) ctx w = (inl e, w'))
           \/ (exists w w', b2_authorizeAccount (raw_root false) ctx "acct" "secret" w
                            = (Some e, w'))
           \/ (exists w, e = ctx_Err ctx w))
     | _ => False
     end
  /\ match deleteBucket (H := draw_half) 5 bucket_handle ctx s0 with
     | Some (Some e, _) =>
         e = "500"
         /\ ((exists w w', b2_deleteBucket (raw_bucket "b") ctx w = (Some e, w'))
           \/ (exists w w', b2_authorizeAccount (raw_root false) ctx "acct" "secret" w
                            = (Some e, w'))
           \/ (exists w, e = ctx_Err ctx w))
     | _ => False
     end
  /\ match getUploadURL (H := draw_half) 5 bucket_handle ctx s0 with
     | Some ((_, Some e), _) =>
         e = "500"
         /\ ((exists w w', b2_getUploadURL (raw_bucket "b") ctx w = (inl e, w'))
           \/ (exists w w', b2_authorizeAccount (raw_root false) ctx "acct" "secret" w
                            = (Some e, w'))
           \/ (exists w, e = ctx_Err ctx w))
     | _ => False
     end
  /\ match uploadFile (H := draw_half) 5 url_handle ctx 0%nat 3 "f" "text/plain" "sha1" [] s0 with
     | Some ((_, Some e), _) =>
         e = "500"
         /\ ((exists w w', b2_uploadFile raw_url ctx 0%nat 3 "f" "text/plain" "sha1" [] w
                         = (inl e, w'))
           \/ (exists w w', b2_authorizeAccount (raw_root false) ctx "acct" "secret" w
                            = (Some e, w'))
           \/ (exists w, e = ctx_Err ctx w))
     | _ => False
     end
  /\ match deleteFileVersion (H := draw_half) 5 file_handle ctx s0 with
     | Some (Some e, _) =>
         e = "500"
         /\ ((exists w w', b2_deleteFileVersion raw_file ctx w = (Some e, w'))
           \/ (exists w w', b2_authorizeAccount (raw_root false) ctx "acct" "secret" w
                            = (Some e, w'))
           \/ (exists w, e = ctx_Err ctx w))
     | _ => False
     end.
Proof.
  intros s0.
  destruct (errors_come_from_below (H := draw_half)) as (A & B & C & D & E & F & G).
  split; [| split; [| split; [| split; [| split; [| split]]]]].
  - assert (V : option_map (fun p => fst p)
                  (authorizeAccount (H := draw_half) 5 0%nat ctx "a" "k" s0)
                = Some (Some "500")) by (vm_compute; reflexivity).
    destruct (authorizeAccount (H := draw_half) 5 0%nat ctx "a" "k" s0)
      as [[[e |] s'] |] eqn:Erun; try discriminate V.
    cbn [option_map fst snd] in V. injection V as Ee.
    split; [exact Ee |]. exact (A _ _ _ _ _ _ _ _ _ Erun).
  - assert (V : option_map (fun p => snd (fst p))
                  (createBucket (H := draw_half) 5 0%nat ctx "b" "allPrivate" s0)
                = Some (Some "500")) by (vm_compute; reflexivity).
    destruct (createBucket (H := draw_half) 5 0%nat ctx "b" "allPrivate" s0)
      as [[[res [e |]] s'] |] eqn:Erun; try discriminate V.
    cbn [option_map fst snd] in V. injection V as Ee.
    split; [exact Ee |]. exact (B _ _ _ _ _ _ _ _ _ _ Erun).
  - assert (V : option_map (fun p => snd (fst p))
                  (listBuckets (H := draw_half) 5 0%nat ctx s0)
                = Some (Some "500")) by (vm_compute; reflexivity).
    destruct (listBuckets (H := draw_half) 5 0%nat ctx s0)
      as [[[res [e |]] s'] |] eqn:Erun; try discriminate V.
    cbn [option_map fst snd] in V. injection V as Ee.
    split; [exact Ee |]. exact (C _ _ _ _ _ _ _ _ Erun).
  - assert (V : option_map (fun p => fst p)
                  (deleteBucket (H := draw_half) 5 bucket_handle ctx s0)
                = Some (Some "500")) by (vm_compute; reflexivity).
    destruct (deleteBucket (H := draw_half) 5 bucket_handle ctx s0)
      as [[[e |] s'] |] eqn:Erun; try discriminate V.
    cbn [option_map fst snd] in V. injection V as Ee.
    split; [exact Ee |]. exact (D _ _ _ _ _ _ _ Erun).
  - assert (V : option_map (fun p => snd (fst p))
                  (getUploadURL (H := draw_half) 5 bucket_handle ctx s0)
                = Some (Some "500")) by (vm_compute; reflexivity).
    destruct (getUploadURL (H := draw_half) 5 bucket_handle ctx s0)
      as [[[res [e |]] s'] |] eqn:Erun; try discriminate V.
    cbn [option_map fst snd] in V. injection V as Ee.
    split; [exact Ee |]. exact (E _ _ _ _ _ _ _ _ Erun).
  - assert (V : option_map (fun p => snd (fst p))
                  (uploadFile (H := draw_half) 5 url_handle ctx 0%nat 3 "f" "text/plain" "sha1" [] s0)
                = Some (Some "500")) by (vm_compute; reflexivity).
    destruct (uploadFile (H := draw_half) 5 url_handle ctx 0%nat 3 "f" "text/plain" "sha1" [] s0)
      as [[[res [e |]] s'] |] eqn:Erun; try discriminate V.
    cbn [option_map fst snd] in V. injection V as Ee.
    split; [exact Ee |]. exact (F _ _ _ _ _ _ _ _ _ _ _ _ _ _ Erun).
  - assert (V : option_map (fun p => fst p)
                  (deleteFileVersion (H := draw_half) 5 file_handle ctx s0)
                = Some (Some "500")) by (vm_compute; reflexivity).
    destruct (deleteFileVersion (H := draw_half) 5 file_handle ctx s0)
      as [[[e |] s'] |] eqn:Erun; try discriminate V.
    cbn [option_map fst snd] in V. injection V as Ee.
    split; [exact Ee |]. exact (G _ _ _ _ _ _ _ Erun).
Defined.

Lemma flaky_work_keeps_classifier (s : state script unit)
    (x : bool * option error) (s' : state script unit) :
  b2i (roots s 0%nat) = override_root ->
  flaky_work s = Some (x, s') ->
  b2i (roots s' 0%nat) = override_root.
Proof.
  unfold flaky_work. intros Hc.
  destruct (op_answers (world s)); intros E; inversion E; subst; exact Hc.
Defined.

Lemma override_replaces_the_backoff_witness :
  let s0 := start_override [Some "503"] in
  (exists s1 w3,
      flaky_work s0 = Some ((false, Some "503"), s1)
      /\ b2_transient (b2i (roots s1 0%nat)) (Some "503") = true
      /\ b2_backoff (b2i (roots s1 0%nat)) (Some "503") = (5 * Second, true)
      /\ select_Done background (5 * Second) (world s1) = (false, w3)
      /\ observed (withBackoff_loop (H := draw_half) 2 background 0%nat flaky_work
                     (77 * Second) s0)
         = Some (None, [RawDeleteBucket; Waited 5000000000; RawDeleteBucket]))
  /\ (forall e, snd (b2_backoff override_root e) = true)
  /\ b2i (roots s0 0%nat) = override_root
  /\ withBackoff_loop (H := draw_half) 4 background 0%nat flaky_work
       (500 * Millisecond) s0
     = withBackoff_loop (H := draw_zero) 4 background 0%nat flaky_work
         (77 * Second) s0.
Proof.
  intros s0.
  destruct (override_replaces_the_backoff (H := draw_half) (L := unit)
              background 0%nat flaky_work) as [Step Same].
  split; [| split; [| split]].
  - eexists. eexists.
    split; [reflexivity |]. split; [reflexivity |]. split; [reflexivity |].
    split; [reflexivity |].
    rewrite (Step 1%nat (77 * Second) s0 _ (Some "503") (5 * Second) _
               eq_refl eq_refl eq_refl eq_refl).
    reflexivity.
  - reflexivity.
  - reflexivity.
  - apply (Same draw_zero override_root).
    + reflexivity.
    + exact flaky_work_keeps_classifier.
    + reflexivity.
Defined.



End FurtherInstances.
